(** * lint-configs: the configuration placement of [copy_config_to_project]

    A shallow embedding of [src/python/lint_configs/__init__.py] and of the
    [copy] and [show] branches of [src/python/lint_configs/__main__.py].

    Python text ([str]) is a sequence of Unicode code points.  A path is
    what [pathlib] keeps of it: a root and the components after it.  The
    operating system decides which file a path leads to: the file system
    holds every file and directory under one name, and each world says, for
    every path, the name it leads to, whatever its spelling ([.], [..],
    relative or absolute) and through hard and symbolic links.  A file
    holds its text as it is on the device; [read_text] opens it in text
    mode, which turns every line end into a newline.  [print] encodes what
    it prints for standard output and raises when it cannot.  The room left
    on the device is counted in code points.  [read_text], [write_text] and
    [exists] are the three operations of [pathlib.Path] the program calls,
    as they are on POSIX.  Python exceptions are the [Raise] outcome of a
    state-and-error monad. *)

From Stdlib Require Import String Ascii.
From stdpp Require Import base numbers option list gmap.

Local Open Scope list_scope.

(** ** Text *)

(** A Python [str]: the code points, in order. *)
Definition str : Type := list N.

(** An ASCII literal of the source as a [str]. *)
Definition u (s : string) : str :=
  (λ c, N_of_ascii c) <$> list_ascii_of_string s.

(** [s * n] on strings, as in ["=" * 76]. *)
Definition str_mul (s : str) (n : nat) : str := mjoin (replicate n s).

(** The code points [str.isspace] accepts, which are the ones [str.rstrip]
    removes when called without an argument. *)
Definition isspace (c : N) : bool :=
  ((9 <=? c) && (c <=? 13) || (28 <=? c) && (c <=? 32)
   || (c =? 133) || (c =? 160) || (c =? 5760)
   || (8192 <=? c) && (c <=? 8202)
   || (c =? 8232) || (c =? 8233) || (c =? 8239) || (c =? 8287)
   || (c =? 12288))%N.

(** [s.rstrip()]: the longest prefix of [s] that does not end in white
    space. *)
Fixpoint rstrip (s : str) : str :=
  match s with
  | [] => []
  | c :: t =>
      match rstrip t with
      | [] => if isspace c then [] else [c]
      | t' => c :: t'
      end
  end.

(** [sep.join(l)]. *)
Fixpoint str_join (sep : str) (l : list str) : str :=
  match l with
  | [] => []
  | [x] => x
  | x :: t => x ++ sep ++ str_join sep t
  end.

Definition nl : str := [10%N].

(** What a file opened in text mode, with [newline=None], hands over of
    the text on the device: a carriage return followed by a newline, and a
    carriage return alone, have become one newline. *)
Fixpoint universal_newlines (s : str) : str :=
  match s with
  | [] => []
  | c :: t =>
      if (c =? 13)%N then
        nl ++ match t with
              | c' :: t' =>
                  if (c' =? 10)%N then universal_newlines t'
                  else universal_newlines t
              | [] => []
              end
      else c :: universal_newlines t
  end.

(** ** Paths *)

(** A [pathlib.Path] on POSIX: the root (empty for a relative path) and the
    components after it.  Two paths are equal when they are spelled the
    same; which file a path leads to is for the world to say. *)
Record Path : Type := mkPath { root : str; tail : list str }.

#[global] Instance Path_eq_dec : EqDecision Path.
Proof. solve_decision. Defined.

#[global] Instance Path_countable : Countable Path :=
  inj_countable' (λ p, (root p, tail p)) (λ rt, mkPath rt.1 rt.2)
    (λ p, match p with mkPath _ _ => eq_refl end).

(** [p / name] for a [name] of one component, which is how the program
    uses the operator. *)
Definition Path_div (p : Path) (name : str) : Path :=
  mkPath (root p) (tail p ++ [name]).

Infix "//" := Path_div (at level 40, left associativity).

(** [p.name]: the last component, empty when there is none. *)
Definition Path_name (p : Path) : str := default [] (last (tail p)).

(** [p.parent]: the path without its last component; a path without
    components is its own parent. *)
Definition Path_parent (p : Path) : Path :=
  mkPath (root p) (removelast (tail p)).

(** [str(p)]. *)
Definition Path_str (p : Path) : str :=
  match root p, tail p with
  | [], [] => u "."
  | r, t => r ++ str_join (u "/") t
  end.

(** ** The file system *)

(** An entry of the file system.  A file holds its permission bits and its
    text: the code points its bytes are in the encoding of the process,
    with the line ends that are on the device.  [Undecodable] is a file
    whose bytes are no text in that encoding; of it the permission bits and
    the room it takes are kept.  A directory holds whether entries may be
    created in it; every directory can be searched. *)
Inductive entry : Type :=
  | File (readable writable : bool) (data : str)
  | Undecodable (readable writable : bool) (size : nat)
  | Dir (writable : bool).

#[global] Instance entry_eq_dec : EqDecision entry.
Proof. solve_decision. Defined.

(** The exceptions the operations raise: the [OSError]s of the three file
    operations, the error of [read_text] on bytes that are no text, and the
    error of [print] on text standard output cannot encode. *)
Inductive exn : Type :=
  | FileNotFoundError (p : Path)
  | IsADirectoryError (p : Path)
  | NotADirectoryError (p : Path)
  | PermissionError (p : Path)
  | NoSpaceLeftOnDevice
  | UnicodeDecodeError (p : Path)
  | UnicodeEncodeError (s : str).

(** The calls the program makes on the file system, in the order made. *)
Inductive call : Type :=
  | CExists (p : Path)
  | CReadText (p : Path)
  | CWriteText (p : Path) (data : str).

Record world : Type := World {
  store : gmap Path entry; (* every file and directory, under one name *)
  resolve : Path → Path;   (* the name in [store] a path leads to *)
  free : nat;              (* code points the device can still take *)
  cwd : Path;              (* the process's working directory *)
  encodes : N → bool;      (* code points standard output can encode *)
  calls : list call;       (* file-system calls so far *)
  stdout : list str;       (* one element per [print] *)
  stderr : list str
}.

(** The file system as the paths of a program see it: [fs w !! p] is the
    entry the path [p] leads to, if there is one. *)
Definition view : Type := Path → option entry.

#[global] Instance view_lookup : Lookup Path entry view := λ p v, v p.

Definition fs (w : world) : view := λ p, store w !! resolve w p.

(** The directory that holds, or would hold, the file [p] leads to. *)
Definition holder (w : world) (p : Path) : option entry :=
  store w !! Path_parent (resolve w p).

Definition set_store (m : gmap Path entry) (n : nat) (w : world) : world :=
  World m (resolve w) n (cwd w) (encodes w) (calls w) (stdout w) (stderr w).

Definition log (c : call) (w : world) : world :=
  World (store w) (resolve w) (free w) (cwd w) (encodes w)
    (calls w ++ [c]) (stdout w) (stderr w).

(** ** The monad of effects *)

Inductive outcome (A : Type) : Type :=
  | Ok (a : A)
  | Raise (e : exn).
Arguments Ok {A} a.
Arguments Raise {A} e.

Definition M (A : Type) : Type := world → outcome A * world.

#[global] Instance M_ret : MRet M := λ A a w, (Ok a, w).

#[global] Instance M_bind : MBind M := λ A B f m w,
  match m w with
  | (Ok a, w') => f a w'
  | (Raise e, w') => (Raise e, w')
  end.

(** [try: m except Exception as e: h e]. *)
Definition try_except {A} (m : M A) (h : exn → M A) : M A := λ w,
  match m w with
  | (Ok a, w') => (Ok a, w')
  | (Raise e, w') => h e w'
  end.

(** The world after [out] has gone to standard output. *)
Definition emit (out : list str) (w : world) : world :=
  World (store w) (resolve w) (free w) (cwd w) (encodes w) (calls w)
    (stdout w ++ out) (stderr w).

(** Standard output can encode [s]. *)
Definition encodable (w : world) (s : str) : bool := forallb (encodes w) s.

(** [print(s)]: standard output encodes with [errors="strict"], so the
    line goes out whole or the call raises and nothing of it goes out. *)
Definition print (s : str) : M unit := λ w,
  if encodable w s then (Ok (), emit [s] w)
  else (Raise (UnicodeEncodeError s), w).

(** [print(s, file=sys.stderr)]: standard error encodes with
    [errors="backslashreplace"] and takes every text. *)
Definition eprint (s : str) : M unit := λ w,
  (Ok (), World (store w) (resolve w) (free w) (cwd w) (encodes w) (calls w)
            (stdout w) (stderr w ++ [s])).

(** [Path.cwd()]. *)
Definition Path_cwd : M Path := λ w, (Ok (cwd w), w).

(** [p.exists()]: [p] leads to an entry, file or directory. *)
Definition Path_exists (p : Path) : M bool := λ w,
  (Ok (bool_decide (is_Some (fs w !! p))), log (CExists p) w).

(** What opening a path that leads to no entry raises: it depends on what
    is where the directory should be. *)
Definition open_missing (w : world) (p : Path) : exn :=
  match holder w p with
  | Some (File _ _ _) | Some (Undecodable _ _ _) => NotADirectoryError p
  | _ => FileNotFoundError p
  end.

(** [p.read_text()]: the text of the file, its line ends turned into
    newlines. *)
Definition read_text (p : Path) : M str := λ w,
  let w' := log (CReadText p) w in
  match fs w !! p with
  | Some (File true _ data) => (Ok (universal_newlines data), w')
  | Some (Undecodable true _ _) => (Raise (UnicodeDecodeError p), w')
  | Some (File false _ _) | Some (Undecodable false _ _) =>
      (Raise (PermissionError p), w')
  | Some (Dir _) => (Raise (IsADirectoryError p), w')
  | None => (Raise (open_missing w p), w')
  end.

(** The data phase of [write_text], after [open(p, "w")] has created or
    emptied the file named [f]: the text goes in as it is when the device
    has room for it; otherwise what fits is written and the call raises. *)
Definition write_data (f : Path) (r wr : bool) (room : nat) (data : str)
    : M unit := λ w,
  if decide (length data ≤ room)
  then (Ok (), set_store (<[f := File r wr data]> (store w))
                 (room - length data) w)
  else (Raise NoSpaceLeftOnDevice,
        set_store (<[f := File r wr (take room data)]> (store w)) 0 w).

(** [p.write_text(data)]: [open(p, "w")], which fails without touching
    anything or creates the file or empties the one [p] leads to, then the
    write of [data]. *)
Definition write_text (p : Path) (data : str) : M unit := λ w,
  let w' := log (CWriteText p data) w in
  match fs w !! p with
  | Some (Dir _) => (Raise (IsADirectoryError p), w')
  | Some (File _ false _) | Some (Undecodable _ false _) =>
      (Raise (PermissionError p), w')
  | Some (File r true old) =>
      write_data (resolve w p) r true (free w + length old) data w'
  | Some (Undecodable r true n) =>
      write_data (resolve w p) r true (free w + n) data w'
  | None =>
      match holder w p with
      | Some (Dir true) => write_data (resolve w p) true true (free w) data w'
      | Some (Dir false) => (Raise (PermissionError p), w')
      | Some (File _ _ _) | Some (Undecodable _ _ _) =>
          (Raise (NotADirectoryError p), w')
      | None => (Raise (FileNotFoundError p), w')
      end
  end.

(** ** The program *)

Definition check_mark : str := [10003%N].     (* U+2713 *)
Definition warning_sign : str := [9888%N].    (* U+26A0 *)

Definition __version__ : str := u "1.0.0".

(** The attribution header, [header] of [copy_config_to_project], with
    [version] put where the template has its placeholder. *)
Definition header_format (version : str) : str :=
  u "# This configuration was copied from agentic-guardrails package" ++ nl ++
  u "# Package version: " ++ version ++ nl ++
  u "# Source: https://github.com/cajias/lint-configs" ++ nl ++
  u "# " ++ nl ++
  u "# To update: pip install --upgrade agentic-guardrails && lint-configs copy" ++ nl ++
  u "#" ++ nl ++
  u "# After copying, customize these sections for your project:" ++ nl ++
  u "# - [tool.ruff.lint.isort] known-first-party: Add your package name" ++ nl ++
  u "# - [tool.coverage.run] source: Add your package name" ++ nl ++
  u "# - [[tool.mypy.overrides]] module: Add your third-party dependencies" ++ nl ++
  u "#" ++ nl ++
  nl.

Definition header : str := header_format __version__.

(** [separator] of the merge branch. *)
Definition separator : str :=
  (nl ++ nl ++ u "# " ++ str_mul (u "=") 76 ++ nl) ++
  (u "# Linting Configuration from agentic-guardrails package" ++ nl) ++
  (u "# " ++ str_mul (u "=") 76 ++ nl ++ nl).

Definition canonical_name : str := u "pyproject.toml".
Definition sidecar_name : str := u "pyproject-linters.toml".

(** The arguments [argparse] hands to [main]. *)
Inductive command : Type :=
  | Copy (target : option Path) (merge : bool)
  | Show (cat : bool)
  | NoCommand.

Section Program.

(** [Path(__file__).parent], fixed when the package is imported. *)
Variable _PACKAGE_DIR : Path.

(** [str(e)] of an exception, and the text of [parser.print_help()]. *)
Variable exn_str : exn → str.
Variable help_text : str.

Definition get_python_config_path : Path :=
  _PACKAGE_DIR // u "python" // u "pyproject-linters.toml".

(** The [if merge_with_existing and target_file.exists():] branch. *)
Definition append_merge (target_file : Path) (source_content : str)
    : M Path :=
  existing_content ← read_text target_file;
  let merged_content :=
    rstrip existing_content ++ separator ++ header ++ source_content in
  write_text target_file merged_content;;
  print (check_mark ++ u " Configuration appended to " ++ Path_str target_file);;
  print (nl ++ warning_sign ++ u "  Please review the merged file and:");;
  print (u "   - Remove any duplicate [tool.*] sections");;
  print (u "   - Merge conflicting settings as needed");;
  mret target_file.

(** The [else:] branch. *)
Definition create (target_dir target_file : Path)
    (merge_with_existing : bool) (source_content : str) : M Path :=
  there ← Path_exists target_file;
  target_file ←
    (if there && negb merge_with_existing then
       let target_file := target_dir // u "pyproject-linters.toml" in
       print (warning_sign ++ u "  pyproject.toml already exists. Creating "
              ++ Path_name target_file ++ u " instead.");;
       print (u "   To merge with existing pyproject.toml, use: lint-configs copy --merge");;
       mret target_file
     else mret target_file);
  let target_content := header ++ source_content in
  write_text target_file target_content;;
  print (check_mark ++ u " Configuration copied to " ++ Path_str target_file);;
  mret target_file.

Definition next_steps (target_file : Path) : M unit :=
  print (nl ++ u "Next steps:");;
  print (u "1. Review and customize the config for your project");;
  print (u "2. Update [tool.ruff.lint.isort] known-first-party with your package name");;
  print (u "3. Update [tool.coverage.run] source with your package name");;
  if decide (Path_name target_file = u "pyproject-linters.toml") then
    print (u "4. Either rename to pyproject.toml or merge into existing pyproject.toml");;
    print (u "5. Run: ruff check . --fix")
  else
    print (u "4. Run: ruff check . --fix");;
    print (u "5. Run: mypy .").

Definition copy_config_to_project (target_dir : option Path)
    (merge_with_existing : bool) : M Path :=
  target_dir ← match target_dir with
               | None => Path_cwd
               | Some d => mret d
               end;
  let source_config := get_python_config_path in
  source_content ← read_text source_config;
  let target_file := target_dir // u "pyproject.toml" in
  (* [and] evaluates [exists()] only when the flag is set *)
  merging ← (if merge_with_existing then Path_exists target_file
             else mret false);
  target_file ←
    (if merging : bool then append_merge target_file source_content
     else create target_dir target_file merge_with_existing source_content);
  next_steps target_file;;
  mret target_file.

(** [main], after [parser.parse_args()]. *)
Definition main (args : command) : M Z :=
  match args with
  | Copy target merge =>
      try_except
        (config_path ← copy_config_to_project target merge; mret 0%Z)
        (λ e, eprint (u "Error: " ++ exn_str e);; mret 1%Z)
  | Show cat =>
      let config_path := get_python_config_path in
      (if cat then text ← read_text config_path; print text
       else print (Path_str config_path));;
      mret 0%Z
  | NoCommand => print help_text;; mret 0%Z
  end.

End Program.

(** ** The vocabulary of the specification *)

(** The directory a call works in: the argument, or the working directory
    when there is none. *)
Definition target_of (target_dir : option Path) (w : world) : Path :=
  default (cwd w) target_dir.

(** The [write_text] calls among [cs], in order. *)
Definition writes (cs : list call) : list (Path * str) :=
  omap (λ c, match c with CWriteText p data => Some (p, data) | _ => None end) cs.

(** The [read_text] calls among [cs], in order. *)
Definition reads (cs : list call) : list Path :=
  omap (λ c, match c with CReadText p => Some p | _ => None end) cs.

(** The three placements of the specification's decision table, the table
    itself and the path each placement names.  These follow the
    specification; the theorems compare them with what
    [copy_config_to_project] does. *)
Inductive mode : Type := CREATE_NEW | CREATE_SIDECAR | APPEND_MERGE.

Definition resolvePlacement (mergeRequested canonicalExists : bool) : mode :=
  match mergeRequested, canonicalExists with
  | true, true => APPEND_MERGE
  | true, false => CREATE_NEW
  | false, true => CREATE_SIDECAR
  | false, false => CREATE_NEW
  end.

Definition placement_path (targetDir : Path) (m : mode) : Path :=
  match m with
  | CREATE_SIDECAR => targetDir // sidecar_name
  | CREATE_NEW | APPEND_MERGE => targetDir // canonical_name
  end.

(** ** Further vocabulary *)

(** [write_text p] of [n] code points can go through in [w]: [p] leads to
    a writable file and the device has the room once it is emptied, or [p]
    leads to nothing, the directory that would hold the file is writable
    and the device has the room. *)
Definition writable (w : world) (p : Path) (n : nat) : Prop :=
  match fs w !! p with
  | Some (File _ true old) => n ≤ free w + length old
  | Some (Undecodable _ true size) => n ≤ free w + size
  | Some _ => False
  | None => holder w p = Some (Dir true) ∧ n ≤ free w
  end.

#[global] Instance writable_dec w p n : Decision (writable w p n).
Proof. unfold writable. repeat case_match; apply _. Defined.

(** [p] leads to a file that can be read as text. *)
Definition readable_file (w : world) (p : Path) : bool :=
  match fs w !! p with
  | Some (File true _ _) => true
  | _ => false
  end.

(** The text has no carriage return. *)
Definition no_cr (s : str) : bool := forallb (λ c, negb (c =? 13)%N) s.

(** [s.split("\n")]: the lines of a text. *)
Fixpoint split_lines (s : str) : list str :=
  match s with
  | [] => [[]]
  | c :: t =>
      if (c =? 10)%N then [] :: split_lines t
      else match split_lines t with
           | l :: ls => (c :: l) :: ls
           | [] => [[c]]
           end
  end.

(** A line that is empty or starts with [#]. *)
Definition comment_or_blank (l : str) : bool :=
  match l with
  | [] => true
  | c :: _ => (c =? 35)%N
  end.

(** The lines a call prints: the notice that the sidecar is used, the line
    that names the file written, the advice after a merge, and the closing
    advice, which depends on whether the sidecar was written. *)
Definition sidecar_notice : list str :=
  [warning_sign ++ u "  pyproject.toml already exists. Creating "
     ++ sidecar_name ++ u " instead.";
   u "   To merge with existing pyproject.toml, use: lint-configs copy --merge"].

Definition done_line (merging : bool) (p : Path) : str :=
  check_mark
  ++ (if merging then u " Configuration appended to "
      else u " Configuration copied to ")
  ++ Path_str p.

Definition review_advice : list str :=
  [nl ++ warning_sign ++ u "  Please review the merged file and:";
   u "   - Remove any duplicate [tool.*] sections";
   u "   - Merge conflicting settings as needed"].

Definition next_steps_lines (sidecar : bool) : list str :=
  [nl ++ u "Next steps:";
   u "1. Review and customize the config for your project";
   u "2. Update [tool.ruff.lint.isort] known-first-party with your package name";
   u "3. Update [tool.coverage.run] source with your package name"]
  ++ (if sidecar
      then [u "4. Either rename to pyproject.toml or merge into existing pyproject.toml";
            u "5. Run: ruff check . --fix"]
      else [u "4. Run: ruff check . --fix"; u "5. Run: mypy ."]).

(** The lines of a placement, in the order printed: those that come before
    the write and those that come after it. *)
Definition lines_before (m : mode) : list str :=
  match m with
  | CREATE_SIDECAR => sidecar_notice
  | CREATE_NEW | APPEND_MERGE => []
  end.

Definition lines_after (m : mode) (p : Path) : list str :=
  match m with
  | APPEND_MERGE => done_line true p :: review_advice ++ next_steps_lines false
  | CREATE_SIDECAR => done_line false p :: next_steps_lines true
  | CREATE_NEW => done_line false p :: next_steps_lines false
  end.

(** The text a call writes, from the text [src] of the bundled file as it
    is on the device: when merging, what [read_text] makes of the text of
    [pyproject.toml], without its trailing white space, then the separator,
    the header and what [read_text] makes of [src]; the header and what
    [read_text] makes of [src] otherwise. *)
Definition written_text (w : world) (canonical : Path) (m : mode)
    (src : str) : str :=
  match m, fs w !! canonical with
  | APPEND_MERGE, Some (File _ _ old) =>
      rstrip (universal_newlines old) ++ separator ++ header
      ++ universal_newlines src
  | _, _ => header ++ universal_newlines src
  end.

(** ** The runs of [copy_config_to_project] *)

(** [print] of each line of [ls], in order, and then [k]. *)
Fixpoint prints_then {A} (ls : list str) (k : M A) : M A :=
  match ls with
  | [] => k
  | s :: t => print s;; prints_then t k
  end.

(** The lines of [ls] that go out before the first one that cannot be
    encoded, and that one, if there is one. *)
Fixpoint printable (enc : N → bool) (ls : list str) : list str :=
  match ls with
  | [] => []
  | s :: t => if forallb enc s then s :: printable enc t else []
  end.

Fixpoint unprintable (enc : N → bool) (ls : list str) : option str :=
  match ls with
  | [] => None
  | s :: t => if forallb enc s then unprintable enc t else Some s
  end.

(** The second half of a call: the lines [pre], the write of [data] to
    [p], the lines [post], and [p] is returned. *)
Definition finish (pre post : list str) (p : Path) (data : str) : M Path :=
  prints_then pre (write_text p data;; prints_then post (mret p)).

(** The world when a call has read and looked, and is about to print and
    write: the file-system calls made so far are on record. *)
Definition probed (cfg canonical : Path) (merge : bool) (m : mode)
    (w : world) : world :=
  let w1 := log (CReadText cfg) w in
  match m with
  | APPEND_MERGE => log (CReadText canonical) (log (CExists canonical) w1)
  | CREATE_NEW | CREATE_SIDECAR =>
      log (CExists canonical)
        (if merge then log (CExists canonical) w1 else w1)
  end.

(** The ways the second half of a call can go: a line before the write
    cannot be printed; the write fails; a line after the write cannot be
    printed; all goes through. *)
Inductive finish_trace (pre post : list str) (p : Path) (data : str)
    (v : world) : outcome Path → world → Prop :=
  | notice_failed s :
      unprintable (encodes v) pre = Some s →
      finish_trace pre post p data v
        (Raise (UnicodeEncodeError s)) (emit (printable (encodes v) pre) v)
  | write_failed e w3 :
      unprintable (encodes v) pre = None →
      write_text p data (emit pre v) = (Raise e, w3) →
      finish_trace pre post p data v (Raise e) w3
  | advice_failed w3 s :
      unprintable (encodes v) pre = None →
      write_text p data (emit pre v) = (Ok (), w3) →
      unprintable (encodes v) post = Some s →
      finish_trace pre post p data v
        (Raise (UnicodeEncodeError s)) (emit (printable (encodes v) post) w3)
  | finished w3 :
      unprintable (encodes v) pre = None →
      write_text p data (emit pre v) = (Ok (), w3) →
      unprintable (encodes v) post = None →
      finish_trace pre post p data v (Ok p) (emit post w3).

(** The ways a call of [copy_config_to_project] in directory [d] can go:
    the bundled file cannot be read; merging, the [pyproject.toml] there
    cannot be read; or the call goes on to print and write what the
    placement asks for. *)
Inductive copy_trace (pkg d : Path) (merge : bool) (w : world)
    : outcome Path → world → Prop :=
  | bundle_unreadable e :
      (read_text (get_python_config_path pkg) w).1 = Raise e →
      copy_trace pkg d merge w (Raise e)
        (log (CReadText (get_python_config_path pkg)) w)
  | existing_unreadable wr src e :
      fs w !! get_python_config_path pkg = Some (File true wr src) →
      merge = true → is_Some (fs w !! (d // canonical_name)) →
      (read_text (d // canonical_name) w).1 = Raise e →
      copy_trace pkg d merge w (Raise e)
        (probed (get_python_config_path pkg) (d // canonical_name) merge
           APPEND_MERGE w)
  | placing wr src m p r w' :
      fs w !! get_python_config_path pkg = Some (File true wr src) →
      m = resolvePlacement merge
            (bool_decide (is_Some (fs w !! (d // canonical_name)))) →
      p = placement_path d m →
      (m = APPEND_MERGE → readable_file w (d // canonical_name) = true) →
      finish_trace (lines_before m) (lines_after m p) p
        (written_text w (d // canonical_name) m src)
        (probed (get_python_config_path pkg) (d // canonical_name) merge m w)
        r w' →
      copy_trace pkg d merge w r w'.

(** ** Worlds to run the program in *)

Definition ex_pkg : Path := mkPath (u "/") [u "site-packages"; u "lint_configs"].
Definition ex_proj : Path := mkPath (u "/") [u "proj"].
Definition ex_bundled : str := u "[tool.ruff]" ++ nl.

(** A world where every path leads to the entry of its own name and
    standard output takes every text, as with UTF-8. *)
Definition ex_world (m : gmap Path entry) (room : nat) : world :=
  World m id room ex_proj (λ _, true) [] [] [].

(** The installed package and an empty, writable project directory. *)
Definition ex_fs : gmap Path entry :=
  <[get_python_config_path ex_pkg := File true false ex_bundled]>
    (<[ex_proj := Dir true]> ∅).

Definition ex_empty : world := ex_world ex_fs 4096.

(** The project has a [pyproject.toml] whose text ends in a space and a
    newline. *)
Definition ex_original : str := u "[project] " ++ nl.

Definition ex_project_fs : gmap Path entry :=
  <[ex_proj // canonical_name := File true true ex_original]> ex_fs.

Definition ex_project : world := ex_world ex_project_fs 4096.

(** The project has both [pyproject.toml] and [pyproject-linters.toml]. *)
Definition ex_both : world :=
  ex_world (<[ex_proj // sidecar_name := File true true (u "# mine" ++ nl)]>
              ex_project_fs) 4096.

(** The same worlds on a device without room. *)
Definition ex_empty_full : world := ex_world ex_fs 0.
Definition ex_project_full : world := ex_world ex_project_fs 0.

(** A text for each exception and a help text, for running [main]. *)
Definition ex_exn_str (e : exn) : str :=
  match e with
  | FileNotFoundError p =>
      u "[Errno 2] No such file or directory: '" ++ Path_str p ++ u "'"
  | IsADirectoryError p =>
      u "[Errno 21] Is a directory: '" ++ Path_str p ++ u "'"
  | NotADirectoryError p =>
      u "[Errno 20] Not a directory: '" ++ Path_str p ++ u "'"
  | PermissionError p =>
      u "[Errno 13] Permission denied: '" ++ Path_str p ++ u "'"
  | NoSpaceLeftOnDevice => u "[Errno 28] No space left on device"
  | UnicodeDecodeError p => u "'utf-8' codec can't decode bytes"
  | UnicodeEncodeError s => u "'ascii' codec can't encode characters"
  end.

Definition ex_help : str := u "usage: lint-configs [-h] [--version] {copy,show} ...".

(** The bundled file is missing. *)
Definition ex_no_bundle : world := ex_world (<[ex_proj := Dir true]> ∅) 4096.

(** In the project, [pyproject.toml] is a directory. *)
Definition ex_canonical_dir : world :=
  ex_world (<[ex_proj // canonical_name := Dir true]> ex_fs) 4096.

(** There is no project directory. *)
Definition ex_no_dir : world :=
  ex_world (<[get_python_config_path ex_pkg := File true false ex_bundled]> ∅)
    4096.

(** The directory of the bundled file holds a [pyproject.toml]. *)
Definition ex_in_package : world :=
  ex_world (<[ex_pkg // u "python" // canonical_name
                := File true true ex_original]>
              (<[ex_pkg // u "python" := Dir true]>
                 (<[get_python_config_path ex_pkg
                      := File true true ex_bundled]> ∅)))
    4096.

(** The bundled file has the line ends of another system: each line ends
    in a carriage return and a newline. *)
Definition ex_bundled_crlf : str := u "[tool.ruff]" ++ [13%N; 10%N].

Definition ex_crlf : world :=
  ex_world (<[get_python_config_path ex_pkg
                := File true false ex_bundled_crlf]>
              (<[ex_proj := Dir true]> ∅)) 4096.


(** The empty project on a standard output that encodes ASCII only, as
    under [PYTHONIOENCODING=ascii]. *)
Definition ex_ascii : world :=
  World ex_fs id 4096 ex_proj (λ c, (c <? 128)%N) [] [] [].


(** The project has a [pyproject.toml], and the bundled file has the line
    ends of another system. *)
Definition ex_project_crlf : world :=
  ex_world (<[ex_proj // canonical_name := File true true ex_original]>
              (store ex_crlf)) 4096.

(** * Properties *)

Arguments u : simpl never.
Arguments header : simpl never.
Arguments separator : simpl never.

(** ** Text and paths *)

Lemma rstrip_nil_inv (s : str) : rstrip s = [] → forallb isspace s = true.
Proof.
  induction s as [|c t IH]; [done|]. cbn.
  destruct (rstrip t) eqn:E; [|done].
  destruct (isspace c); [|done]. intros _. by rewrite IH.
Qed.

(** [rstrip] cuts a suffix of white space off its argument. *)
Lemma rstrip_split (s : str) :
  ∃ ws, s = rstrip s ++ ws ∧ forallb isspace ws = true.
Proof.
  induction s as [|c t [ws [Hs Hws]]]; [by exists []|]. cbn.
  destruct (rstrip t) as [|c' t'] eqn:E.
  - destruct (isspace c) eqn:Ec.
    + exists (c :: t). split; [done|]. cbn. rewrite Ec.
      by apply rstrip_nil_inv.
    + exists ws. split; [|done]. cbn in *. by rewrite <- Hs.
  - exists ws. split; [|done]. cbn in *. by rewrite <- Hs.
Qed.

(** What [rstrip] returns does not end in white space. *)
Lemma rstrip_last (s : str) (c : N) :
  last (rstrip s) = Some c → isspace c = false.
Proof.
  induction s as [|a t IH]; [done|]. cbn.
  destruct (rstrip t) as [|c' t'] eqn:E.
  - destruct (isspace a) eqn:Ea; [done|]. cbn. by intros [= <-].
  - intros H. apply IH. by destruct t'.
Qed.

(** Text that does not end in white space is left alone. *)
Lemma rstrip_id (s : str) :
  (∀ c, last s = Some c → isspace c = false) → rstrip s = s.
Proof.
  induction s as [|a t IH]; [done|]. intros H. cbn.
  destruct t as [|b t'].
  - cbn. by rewrite (H a).
  - rewrite IH; [done|]. intros c Hc. apply H. by rewrite last_cons, Hc.
Qed.

Lemma rstrip_app (a b : str) : rstrip b ≠ [] → rstrip (a ++ b) = a ++ rstrip b.
Proof.
  intros Hb. induction a as [|c a IH]; [done|]. cbn. rewrite IH.
  destruct (a ++ rstrip b) eqn:E; [|done].
  apply app_eq_nil in E as [_ ?]. done.
Qed.

Lemma no_cr_app (a b : str) : no_cr (a ++ b) = no_cr a && no_cr b.
Proof. apply forallb_app. Qed.

(** Text mode leaves no carriage return. *)
Lemma universal_newlines_no_cr (s : str) :
  no_cr (universal_newlines s) = true.
Proof.
  cut (no_cr (universal_newlines s) = true
       ∧ no_cr (universal_newlines (drop 1 s)) = true); [tauto|].
  induction s as [|c t [IH1 IH2]]; [done|].
  split; [|exact IH1]. cbn [universal_newlines].
  destruct (c =? 13)%N eqn:Ec.
  - rewrite no_cr_app. cbn [andb no_cr forallb nl N.eqb negb].
    destruct t as [|c' t']; [done|]. destruct (c' =? 10)%N; [|done].
    exact IH2.
  - unfold no_cr in *. cbn [forallb]. by rewrite Ec.
Qed.

(** Text without carriage returns is read as it is. *)
Lemma universal_newlines_id (s : str) :
  no_cr s = true → universal_newlines s = s.
Proof.
  induction s as [|c t IH]; [done|]. cbn.
  destruct (c =? 13)%N; [done|]. cbn. intros H. by rewrite IH.
Qed.

Lemma universal_newlines_idemp (s : str) :
  universal_newlines (universal_newlines s) = universal_newlines s.
Proof. apply universal_newlines_id, universal_newlines_no_cr. Qed.

Lemma no_cr_rstrip (s : str) : no_cr s = true → no_cr (rstrip s) = true.
Proof.
  intros H. destruct (rstrip_split s) as (ws & Hs & _).
  rewrite Hs, no_cr_app in H. by apply andb_prop in H as [? _].
Qed.

Lemma no_cr_header : no_cr header = true.
Proof. by vm_compute. Qed.

Lemma no_cr_separator : no_cr separator = true.
Proof. by vm_compute. Qed.

Lemma Path_div_name_inj (d e : Path) (a b : str) : d // a = e // b → a = b.
Proof.
  unfold Path_div. intros [= _ H]. by apply app_inj_tail in H as [_ ?].
Qed.

Lemma Path_div_dir_inj (d e : Path) (a b : str) : d // a = e // b → d = e.
Proof.
  destruct d as [r t], e as [r' t']. unfold Path_div. cbn.
  intros [= -> H]. by apply app_inj_tail in H as [-> _].
Qed.

Lemma Path_name_div (d : Path) (a : str) : Path_name (d // a) = a.
Proof. unfold Path_name, Path_div. cbn. by rewrite last_snoc. Qed.

Lemma Path_parent_div (d : Path) (a : str) : Path_parent (d // a) = d.
Proof.
  destruct d as [r t]. unfold Path_parent, Path_div. cbn.
  by rewrite removelast_last.
Qed.

Lemma canonical_ne_sidecar : canonical_name ≠ sidecar_name.
Proof. intros H. vm_compute in H. discriminate H. Qed.

Lemma canonical_ne_sidecar_path (d e : Path) :
  d // canonical_name ≠ e // sidecar_name.
Proof. intros H. by apply Path_div_name_inj, canonical_ne_sidecar in H. Qed.

Lemma writes_app (a b : list call) : writes (a ++ b) = writes a ++ writes b.
Proof. unfold writes. apply omap_app. Qed.

Lemma writes_snoc (cs : list call) (c : call) :
  writes (cs ++ [c]) =
  writes cs ++ match c with CWriteText p t => [(p, t)] | _ => [] end.
Proof. rewrite writes_app. by destruct c. Qed.

Lemma reads_app (a b : list call) : reads (a ++ b) = reads a ++ reads b.
Proof. unfold reads. apply omap_app. Qed.

Lemma reads_snoc (cs : list call) (c : call) :
  reads (cs ++ [c]) =
  reads cs ++ match c with CReadText p => [p] | _ => [] end.
Proof. rewrite reads_app. by destruct c. Qed.

(** ** Worlds *)

Lemma fs_lookup (w : world) (p : Path) : fs w !! p = store w !! resolve w p.
Proof. reflexivity. Qed.

(** Two worlds with the same files, reached the same way, look the same. *)
Lemma fs_eq (v w : world) :
  store v = store w → resolve v = resolve w → fs v = fs w.
Proof. intros Hs Hr. unfold fs. by rewrite Hs, Hr. Qed.

Lemma fs_log (c : call) (w : world) : fs (log c w) = fs w.
Proof. reflexivity. Qed.

Lemma fs_emit (out : list str) (w : world) : fs (emit out w) = fs w.
Proof. reflexivity. Qed.

Lemma holder_log (c : call) (w : world) (p : Path) :
  holder (log c w) p = holder w p.
Proof. reflexivity. Qed.

Lemma holder_emit (out : list str) (w : world) (p : Path) :
  holder (emit out w) p = holder w p.
Proof. reflexivity. Qed.

Lemma encodable_log (c : call) (w : world) (s : str) :
  encodable (log c w) s = encodable w s.
Proof. reflexivity. Qed.

Lemma encodable_emit (out : list str) (w : world) (s : str) :
  encodable (emit out w) s = encodable w s.
Proof. reflexivity. Qed.

Lemma emit_emit (a b : list str) (w : world) :
  emit b (emit a w) = emit (a ++ b) w.
Proof. unfold emit. cbn. by rewrite <- app_assoc. Qed.

Lemma emit_nil (w : world) : emit [] w = w.
Proof. destruct w. unfold emit. cbn. by rewrite app_nil_r. Qed.

Ltac world_simpl :=
  cbn [store resolve free cwd encodes calls stdout stderr emit log set_store
       fst snd] in *;
  rewrite ?fs_log, ?fs_emit, ?holder_log, ?holder_emit, ?encodable_log,
    ?encodable_emit in *.

(** ** The three file operations *)

Lemma read_text_log (p : Path) (w : world) :
  (read_text p w).2 = log (CReadText p) w.
Proof. unfold read_text. by repeat case_match. Qed.

Lemma read_text_Ok (p : Path) (w w1 : world) (s : str) :
  read_text p w = (Ok s, w1) →
  w1 = log (CReadText p) w ∧
  ∃ wr data, fs w !! p = Some (File true wr data) ∧ s = universal_newlines data.
Proof.
  intros H. split; [by rewrite <- read_text_log, H|].
  unfold read_text in H. repeat case_match; simplify_eq. eauto.
Qed.

Lemma read_text_Raise (p : Path) (w w1 : world) (e : exn) :
  read_text p w = (Raise e, w1) → w1 = log (CReadText p) w.
Proof. intros H. by rewrite <- read_text_log, H. Qed.

(** A read that finds a readable file of text returns its text, the line
    ends turned into newlines. *)
Lemma read_text_file (p : Path) (w : world) (wr : bool) (data : str) :
  fs w !! p = Some (File true wr data) →
  read_text p w = (Ok (universal_newlines data), log (CReadText p) w).
Proof. intros H. unfold read_text. by rewrite H. Qed.

(** [read_text] returns exactly on a readable file of text. *)
Lemma read_text_readable (p : Path) (w : world) :
  readable_file w p = true ↔ ∃ s, (read_text p w).1 = Ok s.
Proof.
  unfold readable_file, read_text.
  repeat case_match; cbn; split; try done; try (by intros [? ?]); eauto.
Qed.

(** [read_text] never fails for want of room, nor as [print] does. *)
Lemma read_text_Raise_open (p : Path) (w : world) (e : exn) :
  (read_text p w).1 = Raise e →
  e ≠ NoSpaceLeftOnDevice ∧ ∀ s, e ≠ UnicodeEncodeError s.
Proof.
  unfold read_text, open_missing. intros H.
  repeat case_match; by simplify_eq/=.
Qed.

(** What [read_text] returns depends on the files only. *)
Lemma read_text_same (p : Path) (v w : world) :
  store v = store w → resolve v = resolve w →
  (read_text p v).1 = (read_text p w).1.
Proof.
  intros Hs Hr. unfold read_text, open_missing, holder.
  rewrite (fs_eq v w Hs Hr), Hs, Hr. by repeat case_match.
Qed.

(** [write_text] makes one call and leaves the rest of the world alone. *)
Lemma write_text_frame (p : Path) (data : str) (w : world) :
  let w1 := (write_text p data w).2 in
  calls w1 = calls w ++ [CWriteText p data] ∧ cwd w1 = cwd w ∧
  stdout w1 = stdout w ∧ stderr w1 = stderr w ∧
  resolve w1 = resolve w ∧ encodes w1 = encodes w.
Proof. unfold write_text, write_data. by repeat case_match. Qed.

(** [write_text p] touches no other file than the one [p] leads to. *)
Lemma write_text_other (p q : Path) (data : str) (w : world) :
  resolve w q ≠ resolve w p →
  fs (write_text p data w).2 !! q = fs w !! q.
Proof.
  intros Hq. pose proof (write_text_frame p data w) as (_ & _ & _ & _ & Hr & _).
  rewrite !fs_lookup, Hr. unfold write_text, write_data.
  repeat case_match; world_simpl; try done; by rewrite lookup_insert_ne.
Qed.

(** A [write_text] that returns has put [data] in the file [p] leads to;
    the file keeps the permissions it had, a new file can be read and
    written. *)
Lemma write_text_Ok (p : Path) (data : str) (w w1 : world) (x : unit) :
  write_text p data w = (Ok x, w1) →
  ∃ r, store w1 = <[resolve w p := File r true data]> (store w) ∧
       match fs w !! p with
       | Some (File r0 wr0 old) =>
           r = r0 ∧ wr0 = true ∧ length data ≤ free w + length old ∧
           free w1 = free w + length old - length data
       | Some (Undecodable r0 wr0 n) =>
           r = r0 ∧ wr0 = true ∧ length data ≤ free w + n ∧
           free w1 = free w + n - length data
       | Some (Dir _) => False
       | None =>
           r = true ∧ holder w p = Some (Dir true) ∧
           length data ≤ free w ∧ free w1 = free w - length data
       end.
Proof.
  unfold write_text, write_data. intros H.
  repeat case_match; simplify_eq; world_simpl; eauto 10.
Qed.

(** What a [write_text] that returned has left where its path leads. *)
Lemma write_text_Ok_lookup (p : Path) (data : str) (w w1 : world) :
  write_text p data w = (Ok (), w1) →
  ∃ r, fs w1 !! p = Some (File r true data) ∧
       (fs w !! p = None → r = true) ∧
       (∀ r0 wr0 old, fs w !! p = Some (File r0 wr0 old) → r = r0).
Proof.
  intros H. pose proof (write_text_frame p data w) as (_ & _ & _ & _ & Hr & _).
  rewrite H in Hr. cbn [snd] in Hr.
  apply write_text_Ok in H as (r & Hs & Hm). exists r.
  split; [rewrite fs_lookup, Hs, Hr; apply lookup_insert_eq|].
  destruct (fs w !! p) as [[]|]; try done; split; try done.
  - intros ??? [= <- <- <-]. tauto.
  - tauto.
Qed.

(** A [write_text] that fails for another reason than a full device has
    failed in [open] and has changed nothing; one that fails for a full
    device leaves in the file a part of [data]. *)
Lemma write_text_Raise (p : Path) (data : str) (w w1 : world) (e : exn) :
  write_text p data w = (Raise e, w1) →
  (e ≠ NoSpaceLeftOnDevice ∧ (∀ s, e ≠ UnicodeEncodeError s) ∧
   store w1 = store w ∧ free w1 = free w) ∨
  (e = NoSpaceLeftOnDevice ∧
   ∃ r n, n < length data ∧
          store w1 = <[resolve w p := File r true (take n data)]> (store w)).
Proof.
  unfold write_text, write_data. intros H.
  repeat case_match; simplify_eq; world_simpl;
    try (left; done); right; split; try done; eexists _, _; split; try done; lia.
Qed.

(** The outcome of [write_text] and what it does to the files depend on
    the files and the room left only. *)
Lemma write_text_same (p : Path) (data : str) (w v : world) :
  store w = store v → resolve w = resolve v → free w = free v →
  (write_text p data w).1 = (write_text p data v).1 ∧
  store (write_text p data w).2 = store (write_text p data v).2 ∧
  free (write_text p data w).2 = free (write_text p data v).2.
Proof.
  intros Hs Hr Hfree. unfold write_text, write_data, holder.
  rewrite (fs_eq w v Hs Hr), Hs, Hr, Hfree.
  repeat case_match; world_simpl; by rewrite ?Hs.
Qed.

(** A [write_text] where the directory is writable and nothing is in the
    way, or over a writable file, returns when the device has the room. *)
Lemma write_text_Ok_iff (p : Path) (data : str) (w : world) :
  (write_text p data w).1 = Ok () ↔ writable w p (length data).
Proof.
  unfold write_text, write_data, writable.
  repeat case_match; cbn; split; try done; try lia; try tauto.
  all: try by intros [? ?].
Qed.

Lemma write_text_over (p : Path) (data old : str) (r : bool) (w : world) :
  fs w !! p = Some (File r true old) →
  length data ≤ free w + length old →
  write_text p data w =
    (Ok (), set_store (<[resolve w p := File r true data]> (store w))
              (free w + length old - length data) (log (CWriteText p data) w)).
Proof.
  intros Hp Hroom. unfold write_text, write_data. rewrite Hp.
  by case_decide.
Qed.

(** [write_text] where there is nothing and no writable directory to hold
    the file: [open] fails, by the kind of what is there. *)
Lemma write_text_no_dir (p : Path) (data : str) (w : world) :
  fs w !! p = None → holder w p ≠ Some (Dir true) →
  write_text p data w =
    (Raise match holder w p with
           | None => FileNotFoundError p
           | Some (File _ _ _) | Some (Undecodable _ _ _) =>
               NotADirectoryError p
           | Some (Dir _) => PermissionError p
           end, log (CWriteText p data) w).
Proof.
  intros Hp Hd. unfold write_text. rewrite Hp.
  by destruct (holder w p) as [[| |[]]|].
Qed.

(** ** Printing *)

Lemma print_bind {A} (s : str) (k : M A) (w : world) :
  (print s;; k) w =
    if encodable w s then k (emit [s] w)
    else (Raise (UnicodeEncodeError s), w).
Proof. unfold mbind, M_bind, print. by destruct (encodable w s). Qed.

Lemma unprintable_app (enc : N → bool) (a b : list str) :
  unprintable enc (a ++ b) =
    match unprintable enc a with
    | Some s => Some s
    | None => unprintable enc b
    end.
Proof.
  induction a as [|s a IH]; [done|]. cbn. by destruct (forallb enc s).
Qed.

Lemma printable_app (enc : N → bool) (a b : list str) :
  printable enc (a ++ b) =
    match unprintable enc a with
    | Some _ => printable enc a
    | None => a ++ printable enc b
    end.
Proof.
  induction a as [|s a IH]; [done|]. cbn. destruct (forallb enc s); [|done].
  rewrite IH. by destruct (unprintable enc a).
Qed.

(** When every line can be printed, every line is. *)
Lemma unprintable_None (enc : N → bool) (ls : list str) :
  unprintable enc ls = None ↔ forallb (forallb enc) ls = true.
Proof.
  induction ls as [|s t IH]; [done|]. cbn. by destruct (forallb enc s).
Qed.

Lemma printable_all (enc : N → bool) (ls : list str) :
  unprintable enc ls = None → printable enc ls = ls.
Proof.
  induction ls as [|s t IH]; [done|]. cbn. destruct (forallb enc s); [|done].
  intros H. by rewrite IH.
Qed.

(** The line that stops the printing cannot be encoded, and it comes
    right after the lines printed. *)
Lemma unprintable_Some (enc : N → bool) (ls : list str) (s : str) :
  unprintable enc ls = Some s →
  forallb enc s = false ∧
  forallb (forallb enc) (printable enc ls) = true ∧
  (printable enc ls ++ [s]) `prefix_of` ls.
Proof.
  induction ls as [|a t IH]; [done|]. cbn.
  destruct (forallb enc a) eqn:Ea.
  - intros H. destruct (IH H) as (? & ? & ?). cbn. rewrite Ea.
    repeat split; try done. by apply prefix_cons.
  - intros [= <-]. repeat split; try done. by exists t.
Qed.

(** A run of prints stops at the first line that cannot be encoded. *)
Lemma prints_then_run {A} (ls : list str) (k : M A) (w : world) :
  prints_then ls k w =
    match unprintable (encodes w) ls with
    | Some s =>
        (Raise (UnicodeEncodeError s), emit (printable (encodes w) ls) w)
    | None => k (emit ls w)
    end.
Proof.
  revert w. induction ls as [|s t IH]; intros w;
    cbn [prints_then unprintable printable].
  - by rewrite emit_nil.
  - rewrite print_bind. unfold encodable.
    destruct (forallb (encodes w) s); [|by rewrite emit_nil].
    rewrite IH. cbn [encodes emit].
    destruct (unprintable (encodes w) t); by rewrite emit_emit.
Qed.

(** The closing advice only prints. *)
Lemma next_steps_run (p : Path) (w : world) :
  next_steps p w =
    prints_then (next_steps_lines (bool_decide (Path_name p = sidecar_name)))
      (mret ()) w.
Proof.
  unfold next_steps, next_steps_lines.
  change (u "pyproject-linters.toml") with sidecar_name.
  case_decide.
  - rewrite bool_decide_eq_true_2 by done. cbn [app prints_then].
    rewrite !print_bind. unfold print, mret, M_ret.
    rewrite ?encodable_emit. by repeat case_match.
  - rewrite bool_decide_eq_false_2 by done. cbn [app prints_then].
    rewrite !print_bind. unfold print, mret, M_ret.
    rewrite ?encodable_emit. by repeat case_match.
Qed.

(** ** The second half of a call *)

Lemma bind_run {A B} (m : M A) (k : A → M B) (w : world) :
  (m ≫= k) w =
    match m w with
    | (Ok a, w') => k a w'
    | (Raise e, w') => (Raise e, w')
    end.
Proof. reflexivity. Qed.

Lemma finish_run (pre post : list str) (p : Path) (data : str) (v : world) :
  finish_trace pre post p data v
    (finish pre post p data v).1 (finish pre post p data v).2.
Proof.
  unfold finish. rewrite prints_then_run.
  destruct (unprintable (encodes v) pre) as [s|] eqn:Epre;
    [by apply notice_failed|].
  rewrite bind_run.
  pose proof (write_text_frame p data (emit pre v)) as (_ & _ & _ & _ & _ & He).
  destruct (write_text p data (emit pre v)) as [[[]|e] w3] eqn:Ew;
    [|cbn [fst snd]; by apply write_failed].
  cbn [snd] in He. world_simpl.
  rewrite prints_then_run, He.
  destruct (unprintable (encodes v) post) as [s|] eqn:Epost; cbn [fst snd].
  - by apply advice_failed.
  - by apply finished.
Qed.

Lemma finish_trace_of (pre post : list str) (p : Path) (data : str)
    (v : world) (r : outcome Path) (w' : world) :
  finish pre post p data v = (r, w') → finish_trace pre post p data v r w'.
Proof.
  intros H. pose proof (finish_run pre post p data v) as T.
  by rewrite H in T.
Qed.

(** The closing advice after the second half is part of the second half. *)
Lemma finish_next_steps (pre post : list str) (p : Path) (data : str)
    (w : world) :
  (target_file ← finish pre post p data;
   next_steps target_file;; mret target_file) w
  = finish pre
      (post ++ next_steps_lines (bool_decide (Path_name p = sidecar_name)))
      p data w.
Proof.
  rewrite bind_run. unfold finish.
  rewrite !prints_then_run.
  destruct (unprintable (encodes w) pre); [done|].
  rewrite !bind_run.
  destruct (write_text p data (emit pre w)) as [[[]|e] w3]; [|done].
  rewrite !prints_then_run, unprintable_app, printable_app.
  destruct (unprintable (encodes w3) post); [done|].
  unfold mret at 1, M_ret at 1. rewrite bind_run.
  rewrite next_steps_run, prints_then_run. world_simpl.
  destruct (unprintable (encodes w3) _); by rewrite emit_emit.
Qed.

(** ** Running the program *)

(** Without a directory, the call works in the working directory. *)
Lemma copy_config_to_project_target pkg td merge w :
  copy_config_to_project pkg td merge w =
  copy_config_to_project pkg (Some (target_of td w)) merge w.
Proof. by destruct td. Qed.

Lemma bind_assoc {A B C} (m : M A) (f : A → M B) (g : B → M C) (w : world) :
  ((m ≫= f) ≫= g) w = (m ≫= λ a, f a ≫= g) w.
Proof. rewrite !bind_run. by destruct (m w) as [[a|e] w']. Qed.

Lemma mret_bind {A B} (a : A) (k : A → M B) (w : world) :
  (mret a ≫= k) w = k a w.
Proof. reflexivity. Qed.

(** [append_merge] after its read, and [create] after its look, are second
    halves of a call. *)
Lemma append_merge_run (target_file : Path) (src : str) (w : world) :
  append_merge target_file src w =
    (old ← read_text target_file;
     finish [] (done_line true target_file :: review_advice) target_file
       (rstrip old ++ separator ++ header ++ src)) w.
Proof. reflexivity. Qed.

Lemma create_run (d canonical : Path) (merge : bool) (src : str) (w : world) :
  create d canonical merge src w =
    (let there := bool_decide (is_Some (fs w !! canonical)) in
     let p := if there && negb merge then d // sidecar_name else canonical in
     finish (if there && negb merge then sidecar_notice else [])
       [done_line false p] p (header ++ src) (log (CExists canonical) w)).
Proof.
  unfold create. rewrite bind_run. unfold Path_exists at 1. cbv zeta.
  change (u "pyproject-linters.toml") with sidecar_name.
  destruct (bool_decide (is_Some (fs w !! canonical)) && negb merge).
  - rewrite Path_name_div, bind_assoc, print_bind.
    unfold finish, sidecar_notice. cbn [prints_then]. rewrite print_bind.
    destruct (encodable _ _); [|done].
    rewrite bind_assoc, !print_bind.
    destruct (encodable _ _); [|done]. reflexivity.
  - reflexivity.
Qed.

(** A call is two reads at most and a look, and then a second half. *)
Lemma copy_config_to_project_run pkg d merge w :
  let cfg := get_python_config_path pkg in
  let canonical := d // canonical_name in
  let m := resolvePlacement merge (bool_decide (is_Some (fs w !! canonical))) in
  let p := placement_path d m in
  copy_config_to_project pkg (Some d) merge w =
    match read_text cfg w with
    | (Raise e, w1) => (Raise e, w1)
    | (Ok src, w1) =>
        match m with
        | APPEND_MERGE =>
            match read_text canonical (log (CExists canonical) w1) with
            | (Raise e, w2) => (Raise e, w2)
            | (Ok old, w2) =>
                finish [] (lines_after m p) p
                  (rstrip old ++ separator ++ header ++ src) w2
            end
        | CREATE_NEW | CREATE_SIDECAR =>
            finish (lines_before m) (lines_after m p) p (header ++ src)
              (log (CExists canonical)
                 (if merge then log (CExists canonical) w1 else w1))
        end
    end.
Proof.
  cbv zeta. unfold copy_config_to_project.
  change (u "pyproject.toml") with canonical_name.
  rewrite mret_bind, bind_run.
  destruct (read_text (get_python_config_path pkg) w) as [[src|e] w1] eqn:E1;
    [|done].
  apply read_text_Ok in E1 as (-> & _).
  destruct merge.
  - rewrite bind_run. unfold Path_exists at 1. rewrite fs_log.
    destruct (bool_decide (is_Some (fs w !! (d // canonical_name)))) eqn:Ex;
      cbn [resolvePlacement placement_path lines_before lines_after].
    + rewrite bind_run, append_merge_run, bind_run.
      destruct (read_text (d // canonical_name) _) as [[old|e] w2]; [|done].
      rewrite <- bind_run, finish_next_steps.
      by rewrite bool_decide_eq_false_2
        by (rewrite Path_name_div; apply canonical_ne_sidecar).
    + rewrite bind_run, create_run. cbv zeta. rewrite !fs_log, Ex.
      cbn [andb]. rewrite <- bind_run, finish_next_steps.
      by rewrite bool_decide_eq_false_2
        by (rewrite Path_name_div; apply canonical_ne_sidecar).
  - rewrite mret_bind. cbv iota. rewrite bind_run, create_run. cbv zeta.
    rewrite !fs_log, <- bind_run, finish_next_steps, andb_true_r.
    destruct (bool_decide (is_Some (fs w !! (d // canonical_name)))) eqn:Ex;
      cbn [resolvePlacement placement_path lines_before lines_after].
    + by rewrite bool_decide_eq_true_2 by apply Path_name_div.
    + by rewrite bool_decide_eq_false_2
        by (rewrite Path_name_div; apply canonical_ne_sidecar).
Qed.

(** A call goes one of the ways of [copy_trace]. *)
Lemma copy_config_to_project_trace pkg td merge w :
  copy_trace pkg (target_of td w) merge w
    (copy_config_to_project pkg td merge w).1
    (copy_config_to_project pkg td merge w).2.
Proof.
  rewrite copy_config_to_project_target. generalize (target_of td w) as d.
  intros d. pose proof (copy_config_to_project_run pkg d merge w) as R.
  cbv zeta in R. rewrite R. clear R.
  destruct (read_text (get_python_config_path pkg) w) as [[src|e] w1] eqn:E1.
  2:{ apply read_text_Raise in E1 as E1'. subst w1. cbn [fst snd].
      apply bundle_unreadable. by rewrite E1. }
  apply read_text_Ok in E1 as (-> & wr & data & Hcfg & ->).
  destruct (resolvePlacement merge _) eqn:Em.
  - eapply (placing _ _ _ _ wr data CREATE_NEW);
      [exact Hcfg|by rewrite Em|reflexivity|done|].
    unfold written_text, probed. apply finish_run.
  - eapply (placing _ _ _ _ wr data CREATE_SIDECAR);
      [exact Hcfg|by rewrite Em|reflexivity|done|].
    unfold written_text, probed. apply finish_run.
  - assert (merge = true ∧ is_Some (fs w !! (d // canonical_name))) as [-> Ex].
    { destruct merge, (bool_decide _) eqn:Ex; try done.
      by apply bool_decide_eq_true in Ex. }
    destruct (read_text (d // canonical_name) _) as [[old|e] w2] eqn:E2.
    2:{ apply read_text_Raise in E2 as E2'. subst w2. cbn [fst snd].
        eapply existing_unreadable; eauto.
        erewrite <- read_text_same; [by rewrite E2|done..]. }
    apply read_text_Ok in E2 as (-> & wr' & old' & Hold & ->).
    rewrite !fs_log in Hold.
    eapply (placing _ _ _ _ wr data APPEND_MERGE);
      [exact Hcfg|by rewrite Em|reflexivity| |].
    + intros _. unfold readable_file. by rewrite Hold.
    + unfold written_text, probed. rewrite Hold. apply finish_run.
Qed.

Lemma copy_trace_of pkg td merge w r w' :
  copy_config_to_project pkg td merge w = (r, w') →
  copy_trace pkg (target_of td w) merge w r w'.
Proof.
  intros H. pose proof (copy_config_to_project_trace pkg td merge w) as T.
  by rewrite H in T.
Qed.

(** Reading and looking change nothing but the record of calls, and they
    are no writes. *)
Lemma probed_same (cfg canonical : Path) (merge : bool) (m : mode)
    (w : world) :
  let v := probed cfg canonical merge m w in
  store v = store w ∧ resolve v = resolve w ∧ free v = free w ∧
  cwd v = cwd w ∧ encodes v = encodes w ∧ stdout v = stdout w ∧
  stderr v = stderr w ∧
  ∃ cs, calls v = calls w ++ cs ∧ writes cs = [] ∧
        reads cs = cfg :: match m with
                          | APPEND_MERGE => [canonical]
                          | CREATE_NEW | CREATE_SIDECAR => []
                          end.
Proof.
  unfold probed. destruct m, merge; world_simpl; repeat split; try done;
    eexists; (split; [by rewrite <- ?app_assoc|done]).
Qed.

Lemma fs_probed (cfg canonical : Path) (merge : bool) (m : mode) (w : world) :
  fs (probed cfg canonical merge m w) = fs w.
Proof. unfold probed. by destruct m, merge. Qed.

(** The second half of a call makes one call on the file system at most,
    its write, and leaves the working directory, standard error, where the
    paths lead and what standard output encodes as they were. *)
Lemma finish_frame (pre post : list str) (p : Path) (data : str)
    (v : world) (r : outcome Path) (w' : world) :
  finish_trace pre post p data v r w' →
  cwd w' = cwd v ∧ stderr w' = stderr v ∧ resolve w' = resolve v ∧
  encodes w' = encodes v ∧
  (calls w' = calls v ∨ calls w' = calls v ++ [CWriteText p data]).
Proof.
  intros T.
  inversion T as [s Hs|e w3 Hpre Hw|w3 s Hpre Hw Hs|w3 Hpre Hw Hpost];
    simplify_eq; world_simpl; [by repeat split; try left|..];
    pose proof (write_text_frame p data (emit pre v)) as F; cbv zeta in F;
    rewrite Hw in F; cbn [snd] in F; world_simpl;
    destruct F as (Hc & Hcwd & _ & Herr & Hr & He);
    repeat split; try done; by right.
Qed.

(** A call changes neither the working directory nor standard error, nor
    where the paths lead, nor what standard output encodes. *)
Lemma copy_config_to_project_frame pkg td merge w :
  let w' := (copy_config_to_project pkg td merge w).2 in
  cwd w' = cwd w ∧ stderr w' = stderr w ∧ resolve w' = resolve w ∧
  encodes w' = encodes w.
Proof.
  cbv zeta.
  destruct (copy_config_to_project pkg td merge w) as [r w'] eqn:T.
  apply copy_trace_of in T. cbn [snd].
  inversion T as [e Hcfg|wr src e Hcfg Hm Hex Hold|wr src m p r' w'' Hcfg Hm Hp Hr F];
    simplify_eq.
  - by world_simpl.
  - by world_simpl.
  - apply finish_frame in F as (-> & -> & -> & -> & _).
    pose proof (probed_same (get_python_config_path pkg)
      (target_of td w // canonical_name) merge
      (resolvePlacement merge
         (bool_decide (is_Some (fs w !! (target_of td w // canonical_name)))))
      w) as P.
    cbv zeta in P. tauto.
Qed.

(** A call that returns has read the bundled file and has gone all the way
    through its second half: every line could be printed and the write
    returned. *)
Lemma copy_Ok_inv pkg td merge w p w' :
  copy_config_to_project pkg td merge w = (Ok p, w') →
  let d := target_of td w in
  let cfg := get_python_config_path pkg in
  let m := resolvePlacement merge
             (bool_decide (is_Some (fs w !! (d // canonical_name)))) in
  p = placement_path d m ∧
  ∃ src wr w3,
    fs w !! cfg = Some (File true wr src) ∧
    (m = APPEND_MERGE → readable_file w (d // canonical_name) = true) ∧
    unprintable (encodes w) (lines_before m) = None ∧
    unprintable (encodes w) (lines_after m p) = None ∧
    write_text p (written_text w (d // canonical_name) m src)
      (emit (lines_before m) (probed cfg (d // canonical_name) merge m w))
      = (Ok (), w3) ∧
    w' = emit (lines_after m p) w3.
Proof.
  intros Hrun. apply copy_trace_of in Hrun. cbv zeta.
  inversion Hrun as [| |wr src m p' r' w'' Hcfg Hm Hp Hr F]; simplify_eq.
  inversion F as [| | |w3 Hpre Hw Hpost]; simplify_eq.
  split; [done|]. exists src, wr, w3.
  pose proof (probed_same (get_python_config_path pkg)
    (target_of td w // canonical_name) merge
    (resolvePlacement merge
       (bool_decide (is_Some (fs w !! (target_of td w // canonical_name)))))
    w) as (_ & _ & _ & _ & He & _).
  rewrite He in Hpre, Hpost. done.
Qed.

(** The world a call that returns leaves: one file is new or replaced, and
    the room taken is that of the text less that of the text replaced. *)
Lemma copy_Ok_world pkg td merge w p w' :
  copy_config_to_project pkg td merge w = (Ok p, w') →
  let d := target_of td w in
  let m := resolvePlacement merge
             (bool_decide (is_Some (fs w !! (d // canonical_name)))) in
  let text src := written_text w (d // canonical_name) m src in
  ∃ src wr r,
    fs w !! get_python_config_path pkg = Some (File true wr src) ∧
    p = placement_path d m ∧ cwd w' = cwd w ∧ resolve w' = resolve w ∧
    encodes w' = encodes w ∧
    (m = APPEND_MERGE → readable_file w (d // canonical_name) = true) ∧
    store w' = <[resolve w p := File r true (text src)]> (store w) ∧
    match fs w !! p with
    | Some (File r0 _ old) =>
        r = r0 ∧ length (text src) ≤ free w + length old ∧
        free w' = free w + length old - length (text src)
    | Some (Undecodable r0 _ n) =>
        r = r0 ∧ length (text src) ≤ free w + n ∧
        free w' = free w + n - length (text src)
    | Some (Dir _) => False
    | None =>
        r = true ∧ holder w p = Some (Dir true) ∧
        length (text src) ≤ free w ∧
        free w' = free w - length (text src)
    end.
Proof.
  intros Hrun. cbv zeta.
  pose proof (copy_config_to_project_frame pkg td merge w) as F.
  cbv zeta in F. rewrite Hrun in F. cbn [snd] in F.
  destruct F as (Hcwd & _ & Hres & Henc).
  apply copy_Ok_inv in Hrun as (-> & src & wr & w3 & Hcfg & Hr & _ & _ & Hw & ->).
  pose proof (probed_same (get_python_config_path pkg)
    (target_of td w // canonical_name) merge
    (resolvePlacement merge
       (bool_decide (is_Some (fs w !! (target_of td w // canonical_name)))))
    w) as (Hs & Hrs & Hf & _).
  apply write_text_Ok in Hw as (r & Hs3 & Hm).
  world_simpl. rewrite fs_probed, Hs, Hrs, Hf in *.
  exists src, wr, r. repeat split; try done.
  unfold holder in *. world_simpl. rewrite Hs, Hrs in Hm.
  repeat case_match; try done; tauto.
Qed.

Lemma write_text_other_from (p q : Path) (t : str) (v w w3 : world)
    (o : outcome unit) :
  fs v = fs w → resolve v = resolve w → resolve w q ≠ resolve w p →
  write_text p t v = (o, w3) → fs w3 !! q = fs w !! q.
Proof.
  intros Hfs Hres Hne Hw. pose proof (write_text_other p q t v) as O.
  rewrite Hw in O. cbn [snd] in O. rewrite O, Hfs; [done|]. by rewrite Hres.
Qed.

(** The paths a call leaves as they were: every path that does not lead
    to the file the placement path leads to. *)
Lemma copy_config_to_project_other pkg td merge w q :
  let d := target_of td w in
  let there := bool_decide (is_Some (fs w !! (d // canonical_name))) in
  resolve w q ≠ resolve w (placement_path d (resolvePlacement merge there)) →
  fs (copy_config_to_project pkg td merge w).2 !! q = fs w !! q.
Proof.
  cbv zeta. intros Hq.
  destruct (copy_config_to_project pkg td merge w) as [r w'] eqn:Hrun.
  apply copy_trace_of in Hrun. cbn [snd].
  inversion Hrun as [e Hcfg|wr src e Hcfg Hm Hex Hold|wr src m p r' w'' Hcfg Hm Hp Hr F];
    simplify_eq; [by rewrite ?fs_probed, ?fs_log..|].
  pose proof (probed_same (get_python_config_path pkg)
    (target_of td w // canonical_name) merge
    (resolvePlacement merge
       (bool_decide (is_Some (fs w !! (target_of td w // canonical_name)))))
    w) as (_ & Hrs & _).
  inversion F as [s Hs|e w3 Hpre Hw'|w3 s Hpre Hw' Hs|w3 Hpre Hw' Hpost];
    simplify_eq; rewrite ?fs_emit, ?fs_probed; try done;
    eapply write_text_other_from; try exact Hw'; try exact Hq;
    by rewrite ?fs_emit, ?fs_probed.
Qed.

(** ** The placement of the configuration *)

(** The frame facts of a [write_text] whose result is known. *)
Ltac write_facts Hw :=
  lazymatch type of Hw with
  | write_text ?p ?t ?v = _ =>
      let F := fresh "F" in
      pose proof (write_text_frame p t v) as F; cbv zeta in F;
      rewrite Hw in F; cbn [snd] in F; destruct F as (Hc & _)
  end.

(** What a call that returned has left where the path it returns leads. *)
Lemma copy_Ok_lookup pkg td merge w p w' :
  copy_config_to_project pkg td merge w = (Ok p, w') →
  let d := target_of td w in
  let m := resolvePlacement merge
             (bool_decide (is_Some (fs w !! (d // canonical_name)))) in
  ∃ src wr r,
    fs w !! get_python_config_path pkg = Some (File true wr src) ∧
    p = placement_path d m ∧
    fs w' !! p = Some (File r true (written_text w (d // canonical_name) m src)) ∧
    (fs w !! p = None → r = true) ∧
    (∀ r0 wr0 old, fs w !! p = Some (File r0 wr0 old) → r = r0).
Proof.
  intros Hrun. cbv zeta.
  apply copy_Ok_world in Hrun
    as (src & wr & r & Hcfg & -> & _ & Hres & _ & _ & Hs & Hm).
  exists src, wr, r. split; [done|]. split; [done|].
  split; [rewrite fs_lookup, Hs, Hres; apply lookup_insert_eq|].
  lazymatch goal with |- (fs w !! ?p = None → _) ∧ _ =>
    destruct (fs w !! p) as [[]|] end;
    (split; [intros ?|intros ??? ?]; simplify_eq; tauto).
Qed.

(** C4, as the code has it.  In a directory without [pyproject.toml], a
    call without the merge flag that returns has returned the path of
    [pyproject.toml] in that directory, and the file there holds the
    attribution header followed at once by the bundled text as [read_text]
    hands it over, its line ends turned into newlines, and nothing else;
    that is the bundled text itself when it has no carriage return. *)
Theorem create_new_content pkg td w p w' :
  fs w !! (target_of td w // canonical_name) = None →
  copy_config_to_project pkg td false w = (Ok p, w') →
  p = target_of td w // canonical_name ∧
  Path_name p = canonical_name ∧
  ∃ src wr,
    fs w !! get_python_config_path pkg = Some (File true wr src) ∧
    fs w' !! p = Some (File true true (header ++ universal_newlines src)) ∧
    (no_cr src = true → fs w' !! p = Some (File true true (header ++ src))).
Proof.
  intros Hno Hrun.
  apply copy_Ok_lookup in Hrun as (src & wr & r & Hcfg & -> & Hp & Hr & _).
  rewrite Hno, bool_decide_eq_false_2 in * by (by intros [? ?]).
  cbn [resolvePlacement placement_path] in *. unfold written_text in Hp.
  rewrite (Hr Hno) in Hp.
  split; [done|]. split; [apply Path_name_div|]. exists src, wr.
  split; [done|]. split; [done|]. intros Hcr.
  by rewrite universal_newlines_id in Hp.
Qed.

(** C10, as the code has it.  Whatever the branch, after a call that
    returns the file at the returned path ends with the attribution header
    followed by the bundled text as [read_text] hands it over, which is the
    bundled text itself when it has no carriage return; and the returned
    path is an entry of the target directory. *)
Theorem written_file_ends_with_header_and_bundle pkg td merge w p w' :
  copy_config_to_project pkg td merge w = (Ok p, w') →
  Path_parent p = target_of td w ∧
  ∃ src wr r content,
    fs w !! get_python_config_path pkg = Some (File true wr src) ∧
    fs w' !! p = Some (File r true content) ∧
    (header ++ universal_newlines src) `suffix_of` content ∧
    (no_cr src = true → (header ++ src) `suffix_of` content).
Proof.
  intros Hrun.
  apply copy_Ok_lookup in Hrun as (src & wr & r & Hcfg & -> & Hp & _).
  split; [destruct (resolvePlacement _ _); apply Path_parent_div|].
  exists src, wr, r. eexists. split; [done|]. split; [exact Hp|].
  assert (H : (header ++ universal_newlines src) `suffix_of`
    written_text w (target_of td w // canonical_name)
      (resolvePlacement merge
         (bool_decide (is_Some (fs w !! (target_of td w // canonical_name)))))
      src).
  { unfold written_text. repeat case_match; try done.
    eexists (rstrip _ ++ separator). by rewrite <- app_assoc. }
  split; [done|]. intros Hcr. by rewrite universal_newlines_id in H.
Qed.


(** C2, as the code has it.  With an entry [pyproject.toml] in the
    directory and no merge flag, what a call writes, it writes to the one
    fixed name [pyproject-linters.toml]; it leaves [pyproject.toml] as it
    was, whether it returns or raises, provided that name does not lead to
    the same file; and when it returns, [pyproject-linters.toml] holds the
    header and the bundled text as [read_text] hands it over, whatever was
    there before. *)
Theorem sidecar_never_touches_canonical pkg td w r w' :
  is_Some (fs w !! (target_of td w // canonical_name)) →
  copy_config_to_project pkg td false w = (r, w') →
  (resolve w (target_of td w // sidecar_name)
     ≠ resolve w (target_of td w // canonical_name) →
   fs w' !! (target_of td w // canonical_name)
     = fs w !! (target_of td w // canonical_name)) ∧
  (∃ cs, calls w' = calls w ++ cs ∧
         ∀ q data, (q, data) ∈ writes cs → q = target_of td w // sidecar_name) ∧
  (∀ p, r = Ok p →
     p = target_of td w // sidecar_name ∧
     ∃ src wr rd,
       fs w !! get_python_config_path pkg = Some (File true wr src) ∧
       fs w' !! p = Some (File rd true (header ++ universal_newlines src))).
Proof.
  intros Hex Hrun.
  pose proof (copy_config_to_project_other pkg td false w
                (target_of td w // canonical_name)) as Hother.
  cbv zeta in Hother. rewrite Hrun in Hother. cbn [snd] in Hother.
  rewrite bool_decide_eq_true_2 in Hother by done.
  cbn [resolvePlacement placement_path] in Hother.
  split; [intros Hne; apply Hother; by intros E|]. split.
  - apply copy_trace_of in Hrun.
    inversion Hrun
      as [e Hcfg| |wr src m p r' w'' Hcfg Hm Hp Hr F]; simplify_eq.
    + exists [CReadText (get_python_config_path pkg)]. split; [done|].
      cbn. intros ?? H. by apply elem_of_nil in H.
    + rewrite bool_decide_eq_true_2 in F by done.
      cbn [resolvePlacement placement_path] in F.
      apply finish_frame in F as (_ & _ & _ & _ & Hc).
      pose proof (probed_same (get_python_config_path pkg)
        (target_of td w // canonical_name) false CREATE_SIDECAR w)
        as (_ & _ & _ & _ & _ & _ & _ & cs & Hcs & Hwr & _).
      rewrite Hcs in Hc. destruct Hc as [Hc|Hc].
      * exists cs. split; [done|]. rewrite Hwr. intros ?? H.
        by apply elem_of_nil in H.
      * eexists. split; [by rewrite Hc, <- app_assoc|].
        rewrite writes_snoc, Hwr. cbn. intros ?? H.
        apply list_elem_of_singleton in H. by simplify_eq.
  - intros p ->.
    apply copy_Ok_lookup in Hrun as (src & wr & rd & Hcfg & -> & Hp & _).
    rewrite bool_decide_eq_true_2 in * by done.
    cbn [resolvePlacement placement_path] in *. unfold written_text in Hp.
    split; [done|]. by exists src, wr, rd.
Qed.

(** C1, as the code has it.  With a file [pyproject.toml] in the directory
    and the merge flag, a call that returns has put back at that path the
    old text as [read_text] hands it over, without its trailing white
    space, then the separator, the header and the bundled text as
    [read_text] hands it over; what is left out of the text read is white
    space only, and all its trailing white space is left out; and a text
    without carriage returns is handed over as it is. *)
Theorem merge_appends_to_rstripped pkg td w rd wr old p w' :
  fs w !! (target_of td w // canonical_name) = Some (File rd wr old) →
  copy_config_to_project pkg td true w = (Ok p, w') →
  p = target_of td w // canonical_name ∧
  ∃ src wr0,
    fs w !! get_python_config_path pkg = Some (File true wr0 src) ∧
    fs w' !! p = Some (File rd true
                         (rstrip (universal_newlines old) ++ separator
                          ++ header ++ universal_newlines src)) ∧
    (∃ ws, universal_newlines old = rstrip (universal_newlines old) ++ ws ∧
           forallb isspace ws = true) ∧
    (∀ c, last (rstrip (universal_newlines old)) = Some c →
          isspace c = false) ∧
    (no_cr old = true → universal_newlines old = old) ∧
    (no_cr src = true → universal_newlines src = src).
Proof.
  intros Hold Hrun.
  apply copy_Ok_lookup in Hrun as (src & wr0 & r & Hcfg & -> & Hp & _ & Hr).
  rewrite bool_decide_eq_true_2 in * by (by rewrite Hold).
  cbn [resolvePlacement placement_path] in *. unfold written_text in Hp.
  rewrite Hold in Hp. rewrite (Hr _ _ _ Hold) in Hp.
  split; [done|]. exists src, wr0. split; [done|]. split; [done|].
  split; [apply rstrip_split|]. split; [apply rstrip_last|].
  split; apply universal_newlines_id.
Qed.

(** C3. A call that returns has followed the decision table: it returns
    the path the table names, it has made one [write_text], to that path,
    and it has read [pyproject.toml] back exactly in the row
    [APPEND_MERGE], where it writes the old text (as read, less its
    trailing white space), the separator, the header and the bundled text
    as read; in the other rows it writes the header and the bundled text
    as read. *)
Theorem copy_follows_decision_table pkg td merge w p w' :
  copy_config_to_project pkg td merge w = (Ok p, w') →
  let d := target_of td w in
  let m := resolvePlacement merge
             (bool_decide (is_Some (fs w !! (d // canonical_name)))) in
  p = placement_path d m ∧
  ∃ src wr cs,
    fs w !! get_python_config_path pkg = Some (File true wr src) ∧
    calls w' = calls w ++ cs ∧
    match m with
    | APPEND_MERGE =>
        ∃ rd wr' old,
          fs w !! p = Some (File rd wr' old) ∧
          reads cs = [get_python_config_path pkg; p] ∧
          writes cs = [(p, rstrip (universal_newlines old) ++ separator
                           ++ header ++ universal_newlines src)]
    | CREATE_NEW | CREATE_SIDECAR =>
        reads cs = [get_python_config_path pkg] ∧
        writes cs = [(p, header ++ universal_newlines src)]
    end.
Proof.
  intros Hrun. cbv zeta.
  apply copy_Ok_inv in Hrun
    as (-> & src & wr & w3 & Hcfg & Hr & _ & _ & Hw & ->).
  split; [done|]. exists src, wr.
  write_facts Hw.
  pose proof (probed_same (get_python_config_path pkg)
    (target_of td w // canonical_name) merge
    (resolvePlacement merge
       (bool_decide (is_Some (fs w !! (target_of td w // canonical_name)))))
    w) as (_ & _ & _ & _ & _ & _ & _ & cs & Hcs & Hwr & Hrd).
  world_simpl. rewrite Hcs in Hc.
  exists (cs ++ [CWriteText
    (placement_path (target_of td w)
       (resolvePlacement merge
          (bool_decide (is_Some (fs w !! (target_of td w // canonical_name))))))
    (written_text w (target_of td w // canonical_name)
       (resolvePlacement merge
          (bool_decide (is_Some (fs w !! (target_of td w // canonical_name)))))
       src)]).
  split; [done|]. split; [by rewrite Hc, <- app_assoc|].
  rewrite writes_snoc, reads_snoc, Hwr, Hrd, app_nil_r. unfold written_text.
  destruct (resolvePlacement _ _) eqn:Em; cbn [placement_path app];
    try done.
  specialize (Hr eq_refl). unfold readable_file in Hr.
  destruct (fs w !! (target_of td w // canonical_name))
    as [[[] wr' old| |]|] eqn:Eold; try done.
  by exists true, wr', old.
Qed.

(** The second half of a call depends on the files, the room and what
    standard output encodes only: in two worlds that agree on these it has
    the same outcome, leaves the same files and the same room, prints the
    same and makes the same calls. *)
Lemma finish_same (pre post : list str) (p : Path) (data : str)
    (v1 v2 : world) :
  store v1 = store v2 → resolve v1 = resolve v2 → free v1 = free v2 →
  encodes v1 = encodes v2 →
  let a := finish pre post p data v1 in
  let b := finish pre post p data v2 in
  a.1 = b.1 ∧ store a.2 = store b.2 ∧ resolve a.2 = resolve b.2 ∧
  free a.2 = free b.2 ∧ stderr a.2 = stderr v1 ∧ stderr b.2 = stderr v2 ∧
  ∃ out cs, stdout a.2 = stdout v1 ++ out ∧ stdout b.2 = stdout v2 ++ out ∧
            calls a.2 = calls v1 ++ cs ∧ calls b.2 = calls v2 ++ cs.
Proof.
  intros Hs Hr Hf He. cbv zeta. unfold finish.
  rewrite !prints_then_run, He.
  destruct (unprintable (encodes v2) pre) eqn:Epre;
    cbn [fst snd]; world_simpl.
  { repeat split; try done. exists (printable (encodes v2) pre), [].
    by rewrite !app_nil_r. }
  rewrite !bind_run.
  pose proof (write_text_same p data (emit pre v1) (emit pre v2) Hs Hr Hf)
    as (S1 & S2 & S3).
  pose proof (write_text_frame p data (emit pre v1))
    as (Fa1 & _ & Fa2 & Fa3 & Fa4 & Fa5).
  pose proof (write_text_frame p data (emit pre v2))
    as (Fb1 & _ & Fb2 & Fb3 & Fb4 & Fb5).
  destruct (write_text p data (emit pre v1)) as [[[]|ea] wa];
    destruct (write_text p data (emit pre v2)) as [[[]|eb] wb];
    cbn [fst snd] in *; simplify_eq; world_simpl.
  - rewrite !prints_then_run, Fa5, Fb5, He. unfold mret, M_ret.
    destruct (unprintable (encodes v2) post); cbn [fst snd]; world_simpl;
      rewrite Fa1, Fa2, Fa4, Fb1, Fb2, Fb4, <- !app_assoc;
      (repeat split; try done); by eexists _, _.
  - rewrite Fa1, Fa2, Fa4, Fb1, Fb2, Fb4.
    (repeat split; try done); by eexists _, _.
Qed.

(** What a second half that raised has done, by what it raised. *)
Lemma finish_Raise (pre post : list str) (p : Path) (data : str)
    (v : world) (e : exn) (w' : world) :
  finish_trace pre post p data v (Raise e) w' →
  ((write_text p data v).1 = Raise e ∨
   (∃ s, e = UnicodeEncodeError s ∧ encodable v s = false ∧
         s ∈ pre ++ post)) ∧
  (e ≠ NoSpaceLeftOnDevice → (∀ s, e ≠ UnicodeEncodeError s) →
   store w' = store v ∧ free w' = free v) ∧
  (e = NoSpaceLeftOnDevice →
   ∃ rd n, n < length data ∧
           fs w' !! p = Some (File rd true (take n data))) ∧
  (∀ s, e = UnicodeEncodeError s →
     (store w' = store v ∧ free w' = free v) ∨
     ∃ rd, fs w' !! p = Some (File rd true data)).
Proof.
  intros T.
  inversion T as [s Hs|e' w3 Hpre Hw|w3 s Hpre Hw Hs|]; simplify_eq.
  - apply unprintable_Some in Hs as (Hs & _ & Hpre).
    split; [|by repeat split; try done; left].
    right. exists s. split; [done|]. split; [done|].
    apply elem_of_app. left. destruct Hpre as [k ->].
    rewrite <- app_assoc. apply elem_of_app. right. by left.
  - split.
    { left. pose proof (write_text_same p data (emit pre v) v) as (S & _);
        try done. by rewrite <- S, Hw. }
    pose proof (write_text_frame p data (emit pre v)) as F. cbv zeta in F.
    rewrite Hw in F. cbn [snd] in F. destruct F as (_ & _ & _ & _ & Hr & _).
    apply write_text_Raise in Hw
      as [(Hne & Hnu & Hs & Hf)|(-> & rd & n & Hn & Hs)]; world_simpl.
    + repeat split; try done. intros s ->. by destruct (Hnu s).
    + split; [done|]. split; [|done]. intros _. exists rd, n.
      split; [done|]. rewrite fs_lookup, Hs, Hr. apply lookup_insert_eq.
  - apply unprintable_Some in Hs as (Hs & _ & Hpost).
    split.
    { right. exists s. split; [done|]. split; [done|].
      apply elem_of_app. right. destruct Hpost as [k ->].
      rewrite <- app_assoc. apply elem_of_app. right. by left. }
    split; [intros _ H; by destruct (H s)|]. split; [done|].
    intros s' _. right.
    apply write_text_Ok_lookup in Hw as (rd & Hp & _). by exists rd.
Qed.


(** C7. In a directory without [pyproject.toml] the merge flag changes
    nothing: with it and without it the call has the same outcome, leaves
    the same file system and the same room, prints the same and makes the
    same [write_text]. *)
Theorem merge_without_canonical_is_create pkg td w :
  fs w !! (target_of td w // canonical_name) = None →
  let a := copy_config_to_project pkg td true w in
  let b := copy_config_to_project pkg td false w in
  a.1 = b.1 ∧ fs a.2 = fs b.2 ∧ free a.2 = free b.2 ∧
  stdout a.2 = stdout b.2 ∧ stderr a.2 = stderr b.2 ∧
  writes (calls a.2) = writes (calls b.2).
Proof.
  intros Hno. cbv zeta. rewrite !(copy_config_to_project_target pkg td).
  revert Hno. generalize (target_of td w) as d. intros d Hno.
  pose proof (copy_config_to_project_run pkg d true w) as Ra.
  pose proof (copy_config_to_project_run pkg d false w) as Rb.
  cbv zeta in Ra, Rb. rewrite Ra, Rb. clear Ra Rb.
  rewrite Hno, bool_decide_eq_false_2 by (by intros [? ?]).
  cbn [resolvePlacement].
  destruct (read_text (get_python_config_path pkg) w) as [[src|e] w1] eqn:E1;
    [|done].
  apply read_text_Ok in E1 as (-> & _).
  match goal with |- context [finish ?pre ?post ?p ?t ?va] =>
    match goal with |- context [finish pre post p t ?vb] =>
      lazymatch vb with va => fail | _ => idtac end;
      pose proof (finish_same pre post p t va vb eq_refl eq_refl eq_refl
                    eq_refl) as S
    end
  end.
  cbv zeta in S.
  destruct S as (S1 & S2 & S3 & S4 & S5 & S6 & out & cs & O1 & O2 & C1 & C2).
  split; [done|]. split; [by apply fs_eq|]. split; [done|].
  rewrite S5, S6, O1, O2, C1, C2. world_simpl.
  split; [done|]. split; [done|].
  by rewrite !(writes_app _ cs), !writes_snoc, !app_nil_r.
Qed.

(** C9. [main] on [copy] returns 0 when [copy_config_to_project] returns,
    and nothing goes to standard error; when [copy_config_to_project]
    raises, [main] returns 1 and one line, [Error: ] and the text of the
    exception, has gone to standard error. *)
Theorem copy_exit_code pkg exn_str help_text td merge w :
  match copy_config_to_project pkg td merge w with
  | (Ok p, w') =>
      main pkg exn_str help_text (Copy td merge) w = (Ok 0%Z, w') ∧
      stderr w' = stderr w
  | (Raise e, w') =>
      ∃ w'', main pkg exn_str help_text (Copy td merge) w = (Ok 1%Z, w'') ∧
             stderr w'' = stderr w ++ [u "Error: " ++ exn_str e] ∧
             fs w'' = fs w' ∧ free w'' = free w' ∧ calls w'' = calls w' ∧
             stdout w'' = stdout w'
  end.
Proof.
  pose proof (copy_config_to_project_frame pkg td merge w) as (_ & Herr & _).
  unfold main, try_except, mbind, M_bind, mret, M_ret, eprint.
  destruct (copy_config_to_project pkg td merge w) as [[p|e] w']; cbn in Herr.
  - done.
  - eexists. split; [done|]. world_simpl. by rewrite Herr.
Qed.

(** The second half makes its write exactly when the lines before it can
    be printed. *)
Lemma finish_calls (pre post : list str) (p : Path) (data : str)
    (v : world) (r : outcome Path) (w' : world) :
  finish_trace pre post p data v r w' →
  calls w' = calls v ++ match unprintable (encodes v) pre with
                        | None => [CWriteText p data]
                        | Some _ => []
                        end.
Proof.
  intros T.
  inversion T as [s Hs|e w3 Hpre Hw|w3 s Hpre Hw Hs|w3 Hpre Hw Hpost];
    simplify_eq; world_simpl.
  - by rewrite Hs, app_nil_r.
  - rewrite Hpre. write_facts Hw. by rewrite Hc.
  - rewrite Hpre. write_facts Hw. by rewrite Hc.
  - rewrite Hpre. write_facts Hw. by rewrite Hc.
Qed.

Lemma writable_same (v w : world) (p : Path) (n : nat) :
  store v = store w → resolve v = resolve w → free v = free w →
  writable v p n ↔ writable w p n.
Proof.
  intros Hs Hr Hf. unfold writable, holder.
  by rewrite (fs_eq v w Hs Hr), Hs, Hr, Hf.
Qed.

(** When every line can be printed and the write can go through, the
    second half returns its path; and what it returns is its path. *)
Lemma finish_returns (pre post : list str) (p : Path) (data : str)
    (v : world) (r : outcome Path) (w' : world) :
  finish_trace pre post p data v r w' →
  unprintable (encodes v) (pre ++ post) = None →
  writable v p (length data) → r = Ok p.
Proof.
  intros T Hl Hwr. rewrite unprintable_app in Hl.
  assert (Hw' : (write_text p data (emit pre v)).1 = Ok ()).
  { apply write_text_Ok_iff. by apply (writable_same _ v). }
  inversion T as [s Hs|e w3 Hpre Hw|w3 s Hpre Hw Hs|w3 Hpre Hw Hpost];
    simplify_eq; try done.
  - by rewrite Hs in Hl.
  - by rewrite Hw in Hw'.
  - by rewrite Hpre, Hs in Hl.
Qed.


(** The second half over a file that holds the very text to write leaves
    the files and the room as they were. *)
Lemma finish_over_same (pre post : list str) (p : Path) (data : str)
    (rd : bool) (v : world) (r : outcome Path) (w' : world) :
  fs v !! p = Some (File rd true data) →
  finish_trace pre post p data v r w' →
  store w' = store v ∧ free w' = free v.
Proof.
  intros Hp T. rewrite fs_lookup in Hp.
  assert (Hw' : write_text p data (emit pre v) =
    (Ok (), set_store (store v) (free v) (log (CWriteText p data) (emit pre v)))).
  { rewrite (write_text_over p data data rd); [|done|world_simpl; lia].
    world_simpl. rewrite insert_id by done. do 2 f_equal. lia. }
  inversion T as [s Hs|e w3 Hpre Hw|w3 s Hpre Hw Hs|w3 Hpre Hw Hpost];
    simplify_eq; world_simpl; try done; rewrite Hw' in Hw; by simplify_eq.
Qed.

(** C8, as the code has it.  When a call raises, the exception is the one
    a read, the write or a [print] raised, handed on as it is; at most one
    [write_text] was made, to the path the decision table names, and no
    path that leads to another file has changed.  When the exception is
    neither that of a full device nor that of [print], the file system is
    as it was.  When it is that of a full device, the path written to is
    left with a part of the text meant for it.  When it is that of
    [print], either nothing has changed, or the write was made before and
    the path holds the whole text. *)
Theorem failure_leaves_at_most_a_partial_write pkg td merge w e w' :
  copy_config_to_project pkg td merge w = (Raise e, w') →
  let d := target_of td w in
  let cfg := get_python_config_path pkg in
  let canonical := d // canonical_name in
  let m := resolvePlacement merge (bool_decide (is_Some (fs w !! canonical))) in
  let p := placement_path d m in
  let text src := written_text w canonical m src in
  ((read_text cfg w).1 = Raise e ∨
   (m = APPEND_MERGE ∧ (read_text canonical w).1 = Raise e) ∨
   (∃ src wr, fs w !! cfg = Some (File true wr src) ∧
              (write_text p (text src) w).1 = Raise e) ∨
   (∃ s, e = UnicodeEncodeError s ∧ encodable w s = false ∧
         s ∈ lines_before m ++ lines_after m p)) ∧
  (∃ cs, calls w' = calls w ++ cs ∧ length (writes cs) ≤ 1 ∧
         ∀ q t, (q, t) ∈ writes cs → q = p) ∧
  (∀ q, resolve w q ≠ resolve w p → fs w' !! q = fs w !! q) ∧
  (e ≠ NoSpaceLeftOnDevice → (∀ s, e ≠ UnicodeEncodeError s) →
   fs w' = fs w ∧ free w' = free w) ∧
  (e = NoSpaceLeftOnDevice →
   ∃ src wr rd n,
     fs w !! cfg = Some (File true wr src) ∧ n < length (text src) ∧
     fs w' !! p = Some (File rd true (take n (text src)))) ∧
  (∀ s, e = UnicodeEncodeError s →
     (fs w' = fs w ∧ free w' = free w) ∨
     ∃ src wr rd, fs w !! cfg = Some (File true wr src) ∧
                  fs w' !! p = Some (File rd true (text src))).
Proof.
  intros Hrun. cbv zeta.
  pose proof (λ q, copy_config_to_project_other pkg td merge w q) as Hother.
  cbv zeta in Hother. rewrite Hrun in Hother. cbn [snd] in Hother.
  apply copy_trace_of in Hrun.
  inversion Hrun
    as [e0 Hcfg|wr src e0 Hcfg Hm Hex Hold|wr src m p r' w'' Hcfg Hm Hp Hr F];
    simplify_eq.
  - destruct (read_text_Raise_open _ _ _ Hcfg) as [Hns Hnu].
    split; [by left|]. split.
    { exists [CReadText (get_python_config_path pkg)].
      split; [done|]. split; [cbn; lia|]. cbn. intros ?? H.
      by apply elem_of_nil in H. }
    split; [done|]. split; [done|]. split; [done|].
    intros s ->. by destruct (Hnu s).
  - destruct (read_text_Raise_open _ _ _ Hold) as [Hns Hnu].
    rewrite bool_decide_eq_true_2 in * by done.
    cbn [resolvePlacement] in *.
    split; [right; left; done|]. split.
    { eexists. split; [unfold probed; world_simpl; by rewrite <- !app_assoc|].
      split; [cbn; lia|]. cbn. intros ?? H. by apply elem_of_nil in H. }
    split; [done|]. split; [by rewrite fs_probed|]. split; [done|].
    intros s ->. by destruct (Hnu s).
  - pose proof (probed_same (get_python_config_path pkg)
      (target_of td w // canonical_name) merge
      (resolvePlacement merge
         (bool_decide (is_Some (fs w !! (target_of td w // canonical_name)))))
      w) as (Hs & Hrs & Hf & _ & He & _ & _ & cs & Hcs & Hwr & _).
    pose proof (finish_frame _ _ _ _ _ _ _ F) as (_ & _ & Hres & _ & _).
    pose proof (finish_calls _ _ _ _ _ _ _ F) as Hc.
    apply finish_Raise in F as (A & B & C & D).
    split.
    { right; right. destruct A as [A|(s & -> & Hen & Hin)].
      - left. exists src, wr. split; [done|].
        pose proof (write_text_same
          (placement_path (target_of td w)
             (resolvePlacement merge
                (bool_decide
                   (is_Some (fs w !! (target_of td w // canonical_name))))))
          (written_text w (target_of td w // canonical_name)
             (resolvePlacement merge
                (bool_decide
                   (is_Some (fs w !! (target_of td w // canonical_name)))))
             src) _ w Hs Hrs Hf) as (S & _).
        by rewrite <- S.
      - right. exists s. split; [done|]. split; [|done].
        unfold encodable in *. by rewrite <- He. }
    split.
    { eexists. split; [by rewrite Hc, Hcs, <- app_assoc|].
      rewrite writes_app, Hwr. destruct (unprintable _ _); cbn.
      - split; [lia|]. intros ?? H. by apply elem_of_nil in H.
      - split; [lia|]. intros ?? H. apply list_elem_of_singleton in H.
        by simplify_eq. }
    split; [done|]. split.
    { intros Hns Hnu. destruct (B Hns Hnu) as [B1 B2].
      split; [apply fs_eq|]; congruence. }
    split.
    { intros ->. destruct (C eq_refl) as (rd & n & Hn & Hp).
      by exists src, wr, rd, n. }
    intros s ->. destruct (D s eq_refl) as [[D1 D2]|[rd Hp]].
    + left. split; [apply fs_eq|]; congruence.
    + right. by exists src, wr, rd.
Qed.




(** ** Where the code departs from the specification *)

Example ex_copy_empty :
  (copy_config_to_project ex_pkg None false ex_empty).1
  = Ok (ex_proj // canonical_name).
Proof. vm_compute. reflexivity. Qed.

(** C1 fails as stated: the merged file is not the old text followed by
    the separator, the header and the bundled text, and the old text is
    not even a prefix of it: its trailing space and newline are gone. *)
Lemma merge_drops_trailing_space :
  let run := copy_config_to_project ex_pkg (Some ex_proj) true ex_project in
  fs ex_project !! (ex_proj // canonical_name)
    = Some (File true true ex_original) ∧
  run.1 = Ok (ex_proj // canonical_name) ∧
  fs run.2 !! (ex_proj // canonical_name)
    = Some (File true true
              (u "[project]" ++ separator ++ header ++ ex_bundled)) ∧
  u "[project]" ++ separator ++ header ++ ex_bundled
    ≠ ex_original ++ separator ++ header ++ ex_bundled ∧
  ¬ ex_original `prefix_of`
      u "[project]" ++ separator ++ header ++ ex_bundled.
Proof.
  cbv zeta. split; [by vm_compute|]. split; [by vm_compute|].
  split; [by vm_compute|]. split.
  - intros H. vm_compute in H. discriminate H.
  - intros [k H]. vm_compute in H. discriminate H.
Qed.

(** C2 fails as stated: the path written to, [pyproject-linters.toml], was
    there before the call, and the call has replaced its text. *)
Lemma sidecar_is_overwritten :
  let run := copy_config_to_project ex_pkg (Some ex_proj) false ex_both in
  is_Some (fs ex_both !! (ex_proj // canonical_name)) ∧
  run.1 = Ok (ex_proj // sidecar_name) ∧
  writes (calls run.2) = [(ex_proj // sidecar_name, header ++ ex_bundled)] ∧
  fs ex_both !! (ex_proj // sidecar_name)
    = Some (File true true (u "# mine" ++ nl)) ∧
  fs run.2 !! (ex_proj // sidecar_name)
    = Some (File true true (header ++ ex_bundled)).
Proof.
  cbv zeta. split; [by vm_compute; eexists|]. repeat split; by vm_compute.
Qed.

(** C4 fails as stated: when the lines of the bundled file end in a
    carriage return and a newline, the file written is not the header
    followed by the bundled text as it is: the carriage return is gone. *)
Lemma crlf_bundle_is_translated :
  let run := copy_config_to_project ex_pkg (Some ex_proj) false ex_crlf in
  fs ex_crlf !! (ex_proj // canonical_name) = None ∧
  fs ex_crlf !! get_python_config_path ex_pkg
    = Some (File true false ex_bundled_crlf) ∧
  run.1 = Ok (ex_proj // canonical_name) ∧
  fs run.2 !! (ex_proj // canonical_name)
    = Some (File true true (header ++ u "[tool.ruff]" ++ nl)) ∧
  header ++ u "[tool.ruff]" ++ nl ≠ header ++ ex_bundled_crlf.
Proof.
  cbv zeta. split; [by vm_compute|]. split; [by vm_compute|].
  split; [by vm_compute|]. split; [by vm_compute|].
  intros H. vm_compute in H. discriminate H.
Qed.

(** C10 fails as stated: with such a bundled file the file written, here
    by a merge, does not end with the header followed by the bundled text
    as it is. *)
Lemma crlf_bundle_is_not_a_suffix :
  let run := copy_config_to_project ex_pkg (Some ex_proj) true ex_project_crlf in
  let content := u "[project]" ++ separator ++ header ++ u "[tool.ruff]" ++ nl in
  fs ex_project_crlf !! get_python_config_path ex_pkg
    = Some (File true false ex_bundled_crlf) ∧
  run.1 = Ok (ex_proj // canonical_name) ∧
  fs run.2 !! (ex_proj // canonical_name) = Some (File true true content) ∧
  ¬ (header ++ ex_bundled_crlf) `suffix_of` content.
Proof.
  cbv zeta. split; [by vm_compute|]. split; [by vm_compute|].
  split; [by vm_compute|].
  apply (bool_decide_eq_false_1 _). vm_compute. reflexivity.
Qed.



(** C8 fails as stated: on a device without room the call raises, and yet
    an empty [pyproject.toml] has appeared in a directory that had none;
    with the merge flag the call raises and the [pyproject.toml] that was
    there has lost its trailing space. *)
Lemma failed_copy_has_written :
  let run := copy_config_to_project ex_pkg (Some ex_proj) false ex_empty_full in
  let merged := copy_config_to_project ex_pkg (Some ex_proj) true ex_project_full in
  (run.1 = Raise NoSpaceLeftOnDevice ∧
   fs ex_empty_full !! (ex_proj // canonical_name) = None ∧
   fs run.2 !! (ex_proj // canonical_name) = Some (File true true [])) ∧
  (merged.1 = Raise NoSpaceLeftOnDevice ∧
   fs ex_project_full !! (ex_proj // canonical_name)
     = Some (File true true (u "[project] " ++ nl)) ∧
   fs merged.2 !! (ex_proj // canonical_name)
     = Some (File true true (u "[project]" ++ nl ++ nl))).
Proof. cbv zeta. repeat split; by vm_compute. Qed.

(** ** The theorems at work *)

(** A run whose outcome is known, as a pair. *)
Lemma run_Ok {A} (m : M A) (w : world) (a : A) :
  (m w).1 = Ok a → m w = (Ok a, (m w).2).
Proof. destruct (m w) as [r w']. cbn. by intros ->. Defined.

Lemma run_Raise {A} (m : M A) (w : world) (e : exn) :
  (m w).1 = Raise e → m w = (Raise e, (m w).2).
Proof. destruct (m w) as [r w']. cbn. by intros ->. Defined.

Lemma create_new_content_witness :
  let run := copy_config_to_project ex_pkg None false ex_crlf in
  fs ex_crlf !! (target_of None ex_crlf // canonical_name) = None ∧
  run.1 = Ok (ex_proj // canonical_name) ∧
  Path_name (ex_proj // canonical_name) = canonical_name ∧
  ∃ src wr,
    fs ex_crlf !! get_python_config_path ex_pkg = Some (File true wr src) ∧
    fs run.2 !! (ex_proj // canonical_name)
      = Some (File true true (header ++ universal_newlines src)).
Proof.
  cbv zeta.
  assert (H1 : fs ex_crlf !! (target_of None ex_crlf // canonical_name)
               = None) by (vm_compute; reflexivity).
  assert (H2 : (copy_config_to_project ex_pkg None false ex_crlf).1
               = Ok (ex_proj // canonical_name)) by (vm_compute; reflexivity).
  split; [exact H1|]. split; [exact H2|].
  destruct (create_new_content _ _ _ _ _ H1 (run_Ok _ _ _ H2))
    as (_ & Hn & src & wr & Ha & Hb & _).
  split; [exact Hn|]. exists src, wr. exact (conj Ha Hb).
Defined.

Lemma written_file_ends_with_header_and_bundle_witness :
  let run := copy_config_to_project ex_pkg (Some ex_proj) true ex_project in
  run.1 = Ok (ex_proj // canonical_name) ∧
  Path_parent (ex_proj // canonical_name)
    = target_of (Some ex_proj) ex_project ∧
  ∃ src wr r content,
    fs ex_project !! get_python_config_path ex_pkg
      = Some (File true wr src) ∧
    fs run.2 !! (ex_proj // canonical_name) = Some (File r true content) ∧
    (header ++ universal_newlines src) `suffix_of` content.
Proof.
  cbv zeta.
  assert (H : (copy_config_to_project ex_pkg (Some ex_proj) true ex_project).1
              = Ok (ex_proj // canonical_name)) by (vm_compute; reflexivity).
  split; [exact H|].
  destruct (written_file_ends_with_header_and_bundle _ _ _ _ _ _
              (run_Ok _ _ _ H))
    as (Hp & src & wr & r & content & Ha & Hb & Hc & _).
  split; [exact Hp|]. exists src, wr, r, content.
  exact (conj Ha (conj Hb Hc)).
Defined.


Lemma sidecar_never_touches_canonical_witness :
  let run := copy_config_to_project ex_pkg (Some ex_proj) false ex_both in
  let d := target_of (Some ex_proj) ex_both in
  is_Some (fs ex_both !! (d // canonical_name)) ∧
  run.1 = Ok (ex_proj // sidecar_name) ∧
  fs run.2 !! (d // canonical_name) = fs ex_both !! (d // canonical_name).
Proof.
  cbv zeta.
  assert (H1 : is_Some (fs ex_both
                        !! (target_of (Some ex_proj) ex_both
                            // canonical_name)))
    by (vm_compute; eexists; reflexivity).
  assert (H2 : (copy_config_to_project ex_pkg (Some ex_proj) false
                  ex_both).1 = Ok (ex_proj // sidecar_name))
    by (vm_compute; reflexivity).
  assert (H3 : resolve ex_both
                 (target_of (Some ex_proj) ex_both // sidecar_name)
               ≠ resolve ex_both
                   (target_of (Some ex_proj) ex_both // canonical_name))
    by (intros E; vm_compute in E; discriminate E).
  split; [exact H1|]. split; [exact H2|].
  exact (proj1 (sidecar_never_touches_canonical _ _ _ _ _ H1
                  (run_Ok _ _ _ H2)) H3).
Defined.

Lemma merge_appends_to_rstripped_witness :
  let run := copy_config_to_project ex_pkg (Some ex_proj) true ex_project in
  fs ex_project !! (target_of (Some ex_proj) ex_project // canonical_name)
    = Some (File true true ex_original) ∧
  run.1 = Ok (ex_proj // canonical_name) ∧
  ∃ src wr0,
    fs ex_project !! get_python_config_path ex_pkg
      = Some (File true wr0 src) ∧
    fs run.2 !! (ex_proj // canonical_name)
      = Some (File true true
                (rstrip (universal_newlines ex_original) ++ separator
                 ++ header ++ universal_newlines src)) ∧
    (∃ ws, universal_newlines ex_original
             = rstrip (universal_newlines ex_original) ++ ws ∧
           forallb isspace ws = true).
Proof.
  cbv zeta.
  assert (H1 : fs ex_project
               !! (target_of (Some ex_proj) ex_project // canonical_name)
               = Some (File true true ex_original))
    by (vm_compute; reflexivity).
  assert (H2 : (copy_config_to_project ex_pkg (Some ex_proj) true
                  ex_project).1 = Ok (ex_proj // canonical_name))
    by (vm_compute; reflexivity).
  split; [exact H1|]. split; [exact H2|].
  destruct (merge_appends_to_rstripped _ _ _ _ _ _ _ _ H1 (run_Ok _ _ _ H2))
    as (_ & src & wr0 & Ha & Hb & Hc & _).
  exists src, wr0. exact (conj Ha (conj Hb Hc)).
Defined.

Lemma copy_follows_decision_table_witness :
  let run := copy_config_to_project ex_pkg (Some ex_proj) true ex_project in
  let d := target_of (Some ex_proj) ex_project in
  run.1 = Ok (ex_proj // canonical_name) ∧
  ex_proj // canonical_name
    = placement_path d
        (resolvePlacement true
           (bool_decide (is_Some (fs ex_project !! (d // canonical_name))))).
Proof.
  cbv zeta.
  assert (H : (copy_config_to_project ex_pkg (Some ex_proj) true
                 ex_project).1 = Ok (ex_proj // canonical_name))
    by (vm_compute; reflexivity).
  split; [exact H|].
  exact (proj1 (copy_follows_decision_table _ _ _ _ _ _ (run_Ok _ _ _ H))).
Defined.

Lemma merge_without_canonical_is_create_witness :
  let a := copy_config_to_project ex_pkg None true ex_empty in
  let b := copy_config_to_project ex_pkg None false ex_empty in
  fs ex_empty !! (target_of None ex_empty // canonical_name) = None ∧
  a.1 = b.1 ∧ fs a.2 = fs b.2 ∧ free a.2 = free b.2 ∧
  stdout a.2 = stdout b.2 ∧ stderr a.2 = stderr b.2 ∧
  writes (calls a.2) = writes (calls b.2).
Proof.
  cbv zeta.
  assert (H : fs ex_empty !! (target_of None ex_empty // canonical_name)
              = None) by (vm_compute; reflexivity).
  split; [exact H|].
  exact (merge_without_canonical_is_create ex_pkg None ex_empty H).
Defined.

Lemma failure_leaves_at_most_a_partial_write_witness :
  let run := copy_config_to_project ex_pkg (Some ex_proj) false ex_empty_full in
  run.1 = Raise NoSpaceLeftOnDevice ∧
  ∃ cs, calls run.2 = calls ex_empty_full ++ cs ∧ length (writes cs) ≤ 1 ∧
        ∀ q t, (q, t) ∈ writes cs → q = ex_proj // canonical_name.
Proof.
  cbv zeta.
  assert (H : (copy_config_to_project ex_pkg (Some ex_proj) false
                 ex_empty_full).1 = Raise NoSpaceLeftOnDevice)
    by (vm_compute; reflexivity).
  split; [exact H|].
  exact (proj1 (proj2 (failure_leaves_at_most_a_partial_write _ _ _ _ _ _
                         (run_Raise _ _ _ H)))).
Defined.


(** The two exits of [main] on [copy], in the worlds above, and the exit
    when [print] raises. *)
Example ex_main_exit_codes :
  (main ex_pkg ex_exn_str ex_help (Copy None false) ex_empty).1 = Ok 0%Z ∧
  (main ex_pkg ex_exn_str ex_help (Copy None false) ex_empty_full).1 = Ok 1%Z ∧
  stderr (main ex_pkg ex_exn_str ex_help (Copy None false) ex_empty_full).2
    = [u "Error: [Errno 28] No space left on device"] ∧
  (main ex_pkg ex_exn_str ex_help (Copy None false) ex_ascii).1 = Ok 1%Z.
Proof. repeat split; by vm_compute. Qed.

(** * Further properties *)

(** ** When a call returns *)

(** X1. A call returns, rather than raises, exactly when the bundled file
    can be read as text, the [pyproject.toml] to merge into can be read as
    text, the one write it is to make can go through (over the
    [pyproject.toml] when merging, to the sidecar when there is a
    [pyproject.toml] and no merge flag, to [pyproject.toml] otherwise), and
    standard output can encode every line the call prints. *)
Theorem copy_returns_iff pkg td merge w :
  let d := target_of td w in
  let canonical := d // canonical_name in
  let m := resolvePlacement merge (bool_decide (is_Some (fs w !! canonical))) in
  let p := placement_path d m in
  (∃ q, (copy_config_to_project pkg td merge w).1 = Ok q) ↔
  ∃ src wr,
    fs w !! get_python_config_path pkg = Some (File true wr src) ∧
    (m = APPEND_MERGE → readable_file w canonical = true) ∧
    writable w p (length (written_text w canonical m src)) ∧
    unprintable (encodes w) (lines_before m ++ lines_after m p) = None.
Proof.
  cbv zeta.
  pose proof (probed_same (get_python_config_path pkg)
    (target_of td w // canonical_name) merge
    (resolvePlacement merge
       (bool_decide (is_Some (fs w !! (target_of td w // canonical_name)))))
    w) as (Hs & Hrs & Hf & _ & He & _).
  destruct (copy_config_to_project pkg td merge w) as [r w'] eqn:Hrun.
  cbn [fst]. split.
  - intros [q ->].
    apply copy_Ok_inv in Hrun
      as (-> & src & wr & w3 & Hcfg & Hr & Hpre & Hpost & Hw & ->).
    exists src, wr. split; [done|]. split; [done|]. split.
    + eapply writable_same; [| | |apply write_text_Ok_iff; by rewrite Hw];
        by world_simpl.
    + by rewrite unprintable_app, Hpre.
  - intros (src & wr & Hcfg & Hr & Hwr & Hl).
    apply copy_trace_of in Hrun.
    inversion Hrun
      as [e Hread|wr' src' e _ Hm Hex Hold|wr' src' m p r' w'' Hcfg' Hm Hp _ F];
      simplify_eq.
    + by rewrite (read_text_file _ _ _ _ Hcfg) in Hread.
    + rewrite bool_decide_eq_true_2 in Hr by done.
      apply read_text_readable in Hr as [s Hr]; [|done]. congruence.
    + exists (placement_path (target_of td w)
        (resolvePlacement merge
           (bool_decide
              (is_Some (fs w !! (target_of td w // canonical_name)))))).
      eapply finish_returns; [exact F|by rewrite He|].
      by apply (writable_same _ w).
Qed.

(** ** What stops a call *)

(** X2. When the bundled file cannot be read as text, the call raises what
    that read raises, and the read is all it has done: the target
    directory has not been looked at, nothing is written, nothing is
    printed. *)
Theorem unreadable_bundle_stops_the_call pkg td merge w :
  (∀ wr s, fs w !! get_python_config_path pkg ≠ Some (File true wr s)) →
  copy_config_to_project pkg td merge w =
    (Raise match fs w !! get_python_config_path pkg with
           | Some (File _ _ _) | Some (Undecodable false _ _) =>
               PermissionError (get_python_config_path pkg)
           | Some (Undecodable true _ _) =>
               UnicodeDecodeError (get_python_config_path pkg)
           | Some (Dir _) => IsADirectoryError (get_python_config_path pkg)
           | None => open_missing w (get_python_config_path pkg)
           end,
     log (CReadText (get_python_config_path pkg)) w).
Proof.
  intros Hno. rewrite copy_config_to_project_target.
  pose proof (copy_config_to_project_run pkg (target_of td w) merge w) as R.
  cbv zeta in R. rewrite R. clear R. unfold read_text.
  destruct (fs w !! get_python_config_path pkg) as [[[] wr s|[] wr n|]|] eqn:E;
    try done.
  by destruct (Hno wr s).
Qed.

(** X3. With the merge flag and an entry [pyproject.toml] that is not a
    readable file of text (a directory, a file without read permission, a
    file that is no text), the call raises and has written and printed
    nothing: it does not fall back to creating a file. *)
Theorem merge_needs_a_readable_file pkg td w wr src ent :
  fs w !! get_python_config_path pkg = Some (File true wr src) →
  fs w !! (target_of td w // canonical_name) = Some ent →
  (∀ wr' old, ent ≠ File true wr' old) →
  let canonical := target_of td w // canonical_name in
  let run := copy_config_to_project pkg td true w in
  run.1 = Raise (match ent with
                 | Dir _ => IsADirectoryError canonical
                 | Undecodable true _ _ => UnicodeDecodeError canonical
                 | File _ _ _ | Undecodable false _ _ =>
                     PermissionError canonical
                 end) ∧
  fs run.2 = fs w ∧ free run.2 = free w ∧ stdout run.2 = stdout w ∧
  writes (calls run.2) = writes (calls w).
Proof.
  intros Hcfg Hent Hno. cbv zeta. rewrite copy_config_to_project_target.
  pose proof (copy_config_to_project_run pkg (target_of td w) true w) as R.
  cbv zeta in R. rewrite R. clear R.
  rewrite (read_text_file _ _ _ _ Hcfg).
  rewrite bool_decide_eq_true_2 by (by rewrite Hent).
  cbn [resolvePlacement]. unfold read_text. rewrite !fs_log, Hent.
  destruct ent as [[] wr' old|[] wr' n|dw]; cbn [fst snd]; world_simpl;
    rewrite ?writes_snoc, ?app_nil_r; try done.
  by destruct (Hno wr' old).
Qed.

(** X4. The call makes no directory.  Without an entry [pyproject.toml],
    when the directory that would hold it (the target directory, unless
    [pyproject.toml] is a link that leads elsewhere) is missing, is a file,
    or is not writable, the call raises the matching error for
    [pyproject.toml] and leaves the file system and standard output as
    they were, whatever the merge flag. *)
Theorem target_directory_must_be_writable pkg td merge w wr src :
  fs w !! get_python_config_path pkg = Some (File true wr src) →
  fs w !! (target_of td w // canonical_name) = None →
  holder w (target_of td w // canonical_name) ≠ Some (Dir true) →
  let canonical := target_of td w // canonical_name in
  let run := copy_config_to_project pkg td merge w in
  run.1 = Raise (match holder w canonical with
                 | None => FileNotFoundError canonical
                 | Some (File _ _ _) | Some (Undecodable _ _ _) =>
                     NotADirectoryError canonical
                 | Some (Dir _) => PermissionError canonical
                 end) ∧
  fs run.2 = fs w ∧ free run.2 = free w ∧ stdout run.2 = stdout w ∧
  (Path_parent (resolve w canonical) = resolve w (target_of td w) →
   holder w canonical = fs w !! target_of td w).
Proof.
  intros Hcfg Hno Hdir. cbv zeta. rewrite copy_config_to_project_target.
  pose proof (copy_config_to_project_run pkg (target_of td w) merge w) as R.
  cbv zeta in R. rewrite R. clear R.
  rewrite (read_text_file _ _ _ _ Hcfg).
  rewrite Hno, bool_decide_eq_false_2 by (by intros [? ?]).
  assert (Hm : resolvePlacement merge false = CREATE_NEW) by (by destruct merge).
  rewrite Hm. cbn [placement_path lines_before]. unfold finish.
  cbn [prints_then]. rewrite bind_run, write_text_no_dir;
    [|by destruct merge; world_simpl..].
  cbn [fst snd]. split; [by destruct merge; world_simpl|].
  split; [by destruct merge|]. split; [by destruct merge|].
  split; [by destruct merge|].
  intros E. unfold holder. by rewrite E.
Qed.

(** ** What a call prints *)

Lemma write_text_stdout (p : Path) (t : str) (v w3 : world)
    (o : outcome unit) :
  write_text p t v = (o, w3) → stdout w3 = stdout v.
Proof.
  intros Hw. pose proof (write_text_frame p t v) as F. cbv zeta in F.
  rewrite Hw in F. tauto.
Qed.

(** X5. A call that returns has printed, in this order: the notice that
    the sidecar is used, when the path it returns is the sidecar; one line
    that names the path it returns; the advice to review, after a merge;
    and the closing advice, which tells to rename the file exactly when
    the path returned is the sidecar. *)
Theorem returned_path_is_announced pkg td merge w p w' :
  copy_config_to_project pkg td merge w = (Ok p, w') →
  let d := target_of td w in
  let merging :=
    merge && bool_decide (is_Some (fs w !! (d // canonical_name))) in
  let sidecar := bool_decide (p = d // sidecar_name) in
  stdout w' =
    stdout w
    ++ (if sidecar then sidecar_notice else [])
    ++ [done_line merging p]
    ++ (if merging then review_advice else [])
    ++ next_steps_lines sidecar.
Proof.
  intros Hrun. cbv zeta.
  apply copy_Ok_inv in Hrun
    as (-> & src & wr & w3 & Hcfg & _ & _ & _ & Hw & ->).
  pose proof (write_text_stdout _ _ _ _ _ Hw) as Hout.
  pose proof (probed_same (get_python_config_path pkg)
    (target_of td w // canonical_name) merge
    (resolvePlacement merge
       (bool_decide (is_Some (fs w !! (target_of td w // canonical_name)))))
    w) as (_ & _ & _ & _ & _ & Hout0 & _).
  world_simpl. rewrite Hout, Hout0, <- app_assoc. f_equal.
  destruct merge, (bool_decide (is_Some _));
    cbn [resolvePlacement placement_path lines_before lines_after andb app].
  - rewrite bool_decide_eq_false_2 by apply canonical_ne_sidecar_path. done.
  - rewrite bool_decide_eq_false_2 by apply canonical_ne_sidecar_path. done.
  - rewrite bool_decide_eq_true_2 by done. done.
  - rewrite bool_decide_eq_false_2 by apply canonical_ne_sidecar_path. done.
Qed.

(** X6. A call that raises has printed a part only of what a call that
    returns prints.  When it is a read or the write that raises, what has
    been printed is the notice that [pyproject-linters.toml] is created
    instead, on the way to the sidecar, and nothing otherwise: no line
    that names a file written, no closing advice.  When it is [print] that
    raises, the lines before the one that could not be encoded have been
    printed, and nothing of that line. *)
Theorem failed_call_output pkg td merge w e w' :
  copy_config_to_project pkg td merge w = (Raise e, w') →
  let d := target_of td w in
  let m := resolvePlacement merge
             (bool_decide (is_Some (fs w !! (d // canonical_name)))) in
  let p := placement_path d m in
  ∃ out,
    stdout w' = stdout w ++ out ∧
    ((∀ s, e ≠ UnicodeEncodeError s) →
     out = if readable_file w (get_python_config_path pkg)
           then lines_before m else []) ∧
    (∀ s, e = UnicodeEncodeError s →
       encodable w s = false ∧
       forallb (encodable w) out = true ∧
       (out ++ [s]) `prefix_of` (lines_before m ++ lines_after m p)).
Proof.
  intros Hrun. cbv zeta. apply copy_trace_of in Hrun.
  inversion Hrun
    as [e0 Hcfg|wr src e0 Hcfg Hm Hex Hold|wr src m p r' w'' Hcfg Hm Hp Hr F];
    simplify_eq.
  - destruct (read_text_Raise_open _ _ _ Hcfg) as [_ Hnu].
    exists []. world_simpl. rewrite app_nil_r. split; [done|]. split.
    + intros _. destruct (readable_file w _) eqn:Er; [|done].
      apply read_text_readable in Er as [s Hs]. congruence.
    + intros s ->. by destruct (Hnu s).
  - destruct (read_text_Raise_open _ _ _ Hold) as [_ Hnu].
    exists []. unfold probed. world_simpl. rewrite app_nil_r.
    split; [done|]. rewrite bool_decide_eq_true_2 by done.
    cbn [resolvePlacement lines_before]. split; [by destruct (readable_file _ _)|].
    intros s ->. by destruct (Hnu s).
  - pose proof (probed_same (get_python_config_path pkg)
      (target_of td w // canonical_name) merge
      (resolvePlacement merge
         (bool_decide (is_Some (fs w !! (target_of td w // canonical_name)))))
      w) as (_ & _ & _ & _ & He & Hout0 & _).
    assert (Hrd : readable_file w (get_python_config_path pkg) = true)
      by (unfold readable_file; by rewrite Hcfg).
    rewrite Hrd.
    inversion F as [s Hs|e' w3 Hpre Hw|w3 s Hpre Hw Hs|]; simplify_eq.
    + rewrite He in *. apply unprintable_Some in Hs as (Hs & Hall & Hpf).
      eexists. world_simpl. split; [by rewrite Hout0|].
      split; [intros H; by destruct (H s)|]. intros s' [= <-].
      split; [exact Hs|]. split; [exact Hall|]. by apply prefix_app_r.
    + rewrite He in *. pose proof (write_text_stdout _ _ _ _ _ Hw) as Hout.
      eexists. world_simpl. split; [by rewrite Hout, Hout0|].
      split; [done|]. intros s ->.
      apply write_text_Raise in Hw as [(_ & Hnu & _)|(? & _)]; [|done].
      by destruct (Hnu s).
    + rewrite He in *. apply unprintable_Some in Hs as (Hs & Hall & Hpf).
      pose proof (write_text_stdout _ _ _ _ _ Hw) as Hout.
      eexists. world_simpl. split; [by rewrite Hout, Hout0, <- app_assoc|].
      split; [intros H; by destruct (H s)|]. intros s' [= <-].
      split; [exact Hs|]. split.
      * rewrite forallb_app. apply andb_true_intro.
        split; [by apply unprintable_None|exact Hall].
      * rewrite <- app_assoc. by apply prefix_app.
Qed.

(** ** What a call leaves alone *)

(** [write_text p] changes no other file than the one [p] leads to,
    whether a path leads to it or not. *)
Lemma write_text_store_other (p k : Path) (data : str) (w : world) :
  k ≠ resolve w p → store (write_text p data w).2 !! k = store w !! k.
Proof.
  intros Hk. unfold write_text, write_data.
  repeat case_match; world_simpl; try done; by rewrite lookup_insert_ne.
Qed.

Lemma finish_store_other (pre post : list str) (p k : Path) (data : str)
    (v : world) (r : outcome Path) (w' : world) :
  finish_trace pre post p data v r w' →
  k ≠ resolve v p → store w' !! k = store v !! k.
Proof.
  intros T Hk.
  inversion T as [s Hs|e w3 Hpre Hw|w3 s Hpre Hw Hs|w3 Hpre Hw Hpost];
    simplify_eq; world_simpl; try done;
    pose proof (write_text_store_other p k data (emit pre v) Hk) as O;
    by rewrite Hw in O.
Qed.

(** X7. Whatever its outcome, a call changes one file at most, the one the
    path the decision table names leads to: every other file and directory
    is as it was, none is made, none removed; the paths lead where they
    led; and so every path that does not lead to that file has the entry
    it had. *)
Theorem only_the_placement_path_changes pkg td merge w :
  let d := target_of td w in
  let there := bool_decide (is_Some (fs w !! (d // canonical_name))) in
  let p := placement_path d (resolvePlacement merge there) in
  let w' := (copy_config_to_project pkg td merge w).2 in
  resolve w' = resolve w ∧
  (∀ k, k ≠ resolve w p → store w' !! k = store w !! k) ∧
  (∀ q, resolve w q ≠ resolve w p → fs w' !! q = fs w !! q).
Proof.
  cbv zeta.
  pose proof (copy_config_to_project_frame pkg td merge w) as (_ & _ & Hres & _).
  split; [done|].
  assert (Hstore : ∀ k,
    k ≠ resolve w
          (placement_path (target_of td w)
             (resolvePlacement merge
                (bool_decide
                   (is_Some (fs w !! (target_of td w // canonical_name)))))) →
    store (copy_config_to_project pkg td merge w).2 !! k = store w !! k).
  { intros k Hk.
    destruct (copy_config_to_project pkg td merge w) as [r w'] eqn:Hrun.
    apply copy_trace_of in Hrun. cbn [snd].
    pose proof (probed_same (get_python_config_path pkg)
      (target_of td w // canonical_name) merge
      (resolvePlacement merge
         (bool_decide (is_Some (fs w !! (target_of td w // canonical_name)))))
      w) as (Hs & Hrs & _).
    inversion Hrun
      as [e Hcfg|wr src e Hcfg Hm Hex Hold|wr src m p r' w'' Hcfg Hm Hp Hr F];
      simplify_eq; [done|unfold probed; by world_simpl|].
    apply (finish_store_other _ _ _ k) in F; [|by rewrite Hrs].
    by rewrite F, Hs. }
  split; [exact Hstore|]. intros q Hq. rewrite !fs_lookup, Hres.
  by apply Hstore.
Qed.

(** A call that cannot read the bundled file has only tried to. *)
Lemma copy_config_to_project_unread pkg td merge w :
  (∀ wr s, fs w !! get_python_config_path pkg ≠ Some (File true wr s)) →
  (copy_config_to_project pkg td merge w).2
    = log (CReadText (get_python_config_path pkg)) w.
Proof.
  intros Hno.
  destruct (copy_config_to_project pkg td merge w) as [r w'] eqn:Hrun.
  apply copy_trace_of in Hrun. cbn [snd].
  inversion Hrun as [e Hcfg|wr src e Hcfg|wr src m p r' w'' Hcfg];
    simplify_eq; [done|by destruct (Hno wr src)..].
Qed.

(** X8. A call into a directory without [pyproject.toml] leaves the
    bundled file as it is; so does any call, provided the path it writes
    to does not lead to the bundled file itself. *)
Theorem bundled_file_is_left_alone pkg td merge w :
  let d := target_of td w in
  let there := bool_decide (is_Some (fs w !! (d // canonical_name))) in
  let p := placement_path d (resolvePlacement merge there) in
  (there = true → resolve w p ≠ resolve w (get_python_config_path pkg)) →
  fs (copy_config_to_project pkg td merge w).2 !! get_python_config_path pkg
    = fs w !! get_python_config_path pkg.
Proof.
  cbv zeta. intros Hp.
  destruct (decide (resolve w (get_python_config_path pkg)
    = resolve w (placement_path (target_of td w)
        (resolvePlacement merge
           (bool_decide
              (is_Some (fs w !! (target_of td w // canonical_name)))))))) as [E|E];
    [|by apply copy_config_to_project_other].
  destruct (bool_decide (is_Some (fs w !! (target_of td w // canonical_name))))
    eqn:Ex; [by destruct Hp|].
  apply bool_decide_eq_false in Ex.
  assert (Hm : resolvePlacement merge false = CREATE_NEW) by (by destruct merge).
  rewrite Hm in E. cbn [placement_path] in E.
  assert (Hcfg : fs w !! get_python_config_path pkg = None).
  { rewrite fs_lookup, E, <- fs_lookup.
    destruct (fs w !! (target_of td w // canonical_name)) eqn:Ec; [|done].
    by destruct Ex. }
  rewrite copy_config_to_project_unread by (intros ??; by rewrite Hcfg).
  done.
Qed.

(** ** Calls one after the other *)

(** X9. Without the merge flag, a second call after one that wrote the
    sidecar returns the same path and leaves the file system and the room
    on the device exactly as the first call left them: it writes the same
    text over the sidecar.  (The sidecar path does not lead to the bundled
    file.) *)
Theorem sidecar_rerun_changes_nothing pkg td w p1 w1 :
  is_Some (fs w !! (target_of td w // canonical_name)) →
  resolve w (target_of td w // sidecar_name)
    ≠ resolve w (get_python_config_path pkg) →
  copy_config_to_project pkg td false w = (Ok p1, w1) →
  let second := copy_config_to_project pkg td false w1 in
  p1 = target_of td w // sidecar_name ∧
  second.1 = Ok p1 ∧ fs second.2 = fs w1 ∧ free second.2 = free w1.
Proof.
  intros Hex Hne Hrun. cbv zeta.
  pose proof (copy_Ok_inv _ _ _ _ _ _ Hrun)
    as (_ & _ & _ & _ & _ & _ & Hpre & Hpost & _).
  apply copy_Ok_world in Hrun
    as (src & wr & r & Hcfg & -> & Hcwd & Hres & Henc & _ & Hs1 & _).
  rewrite bool_decide_eq_true_2 in * by done.
  cbn [resolvePlacement placement_path] in *. unfold written_text in Hs1.
  assert (Htd : target_of td w1 = target_of td w)
    by (unfold target_of; by rewrite Hcwd).
  assert (Hside : fs w1 !! (target_of td w // sidecar_name)
                  = Some (File r true (header ++ universal_newlines src)))
    by (rewrite fs_lookup, Hs1, Hres; apply lookup_insert_eq).
  assert (Hcanon : is_Some (fs w1 !! (target_of td w // canonical_name))).
  { rewrite fs_lookup, Hs1, Hres.
    destruct (decide (resolve w (target_of td w // sidecar_name)
                      = resolve w (target_of td w // canonical_name))) as [E|E].
    - rewrite E, lookup_insert_eq. by eexists.
    - by rewrite lookup_insert_ne. }
  assert (Hcfg1 : fs w1 !! get_python_config_path pkg
                  = Some (File true wr src))
    by (by rewrite fs_lookup, Hs1, Hres, lookup_insert_ne).
  split; [done|].
  destruct (copy_config_to_project pkg td false w1) as [r2 w2] eqn:Hrun2.
  cbn [fst snd]. apply copy_trace_of in Hrun2. rewrite Htd in Hrun2.
  inversion Hrun2
    as [e Hread| |wr' src' m p r' w'' Hcfg' Hm Hp Hr F]; simplify_eq.
  { by rewrite (read_text_file _ _ _ _ Hcfg1) in Hread. }
  rewrite bool_decide_eq_true_2 in F by done.
  cbn [resolvePlacement placement_path] in F. unfold written_text in F.
  pose proof (probed_same (get_python_config_path pkg)
    (target_of td w // canonical_name) false CREATE_SIDECAR w1)
    as (Hs & Hrs & Hf & _ & He & _).
  pose proof (finish_frame _ _ _ _ _ _ _ F) as (_ & _ & Hres2 & _).
  assert (Hv : fs (probed (get_python_config_path pkg)
                     (target_of td w // canonical_name) false CREATE_SIDECAR w1)
                !! (target_of td w // sidecar_name)
               = Some (File r true (header ++ universal_newlines src)))
    by (by rewrite fs_probed).
  destruct (finish_over_same _ _ _ _ _ _ _ _ Hv F) as [F1 F2].
  split; [|split; [apply fs_eq|]; congruence].
  eapply finish_returns; [exact F| |].
  - by rewrite He, Henc, unprintable_app, Hpre.
  - apply (writable_same _ w1); try done. unfold writable.
    rewrite Hside. lia.
Qed.

(** X10. The merge is not idempotent: a second merging call appends the
    block again.  After two merging calls that return, [pyproject.toml]
    holds the result of the first, without its trailing white space, then
    once more the separator, the header and the bundled text as read; when
    the bundled text is not all white space, that is the old text as read,
    then twice the separator, the header and the bundled text, the first
    time without the white space that ends the bundled text.
    ([pyproject.toml] does not lead to the bundled file.) *)
Theorem merge_twice_appends_twice pkg td w rd wr old p1 w1 p2 w2 :
  fs w !! (target_of td w // canonical_name) = Some (File rd wr old) →
  resolve w (target_of td w // canonical_name)
    ≠ resolve w (get_python_config_path pkg) →
  copy_config_to_project pkg td true w = (Ok p1, w1) →
  copy_config_to_project pkg td true w1 = (Ok p2, w2) →
  ∃ src wr0,
    fs w !! get_python_config_path pkg = Some (File true wr0 src) ∧
    let block := separator ++ header ++ universal_newlines src in
    let once := rstrip (universal_newlines old) ++ block in
    fs w1 !! (target_of td w // canonical_name) = Some (File rd true once) ∧
    fs w2 !! (target_of td w // canonical_name)
      = Some (File rd true (rstrip once ++ block)) ∧
    (rstrip (universal_newlines src) ≠ [] →
     fs w2 !! (target_of td w // canonical_name)
       = Some (File rd true
                 (rstrip (universal_newlines old)
                  ++ (separator ++ header ++ rstrip (universal_newlines src))
                  ++ block))).
Proof.
  intros Hold Hne Hrun1 Hrun2. cbv zeta.
  apply copy_Ok_world in Hrun1
    as (src & wr0 & r & Hcfg & -> & Hcwd & Hres & _ & _ & Hs1 & Hr).
  rewrite bool_decide_eq_true_2 in * by (by rewrite Hold).
  cbn [resolvePlacement placement_path] in *. unfold written_text in *.
  rewrite Hold in *. destruct Hr as (-> & _).
  assert (Htd : target_of td w1 = target_of td w)
    by (unfold target_of; by rewrite Hcwd).
  assert (Hcanon : fs w1 !! (target_of td w // canonical_name)
            = Some (File rd true (rstrip (universal_newlines old) ++ separator
                                  ++ header ++ universal_newlines src)))
    by (rewrite fs_lookup, Hs1, Hres; apply lookup_insert_eq).
  assert (Hcfg1 : fs w1 !! get_python_config_path pkg
                  = Some (File true wr0 src)).
  { rewrite fs_lookup, Hs1, Hres, lookup_insert_ne; [done|]. by intros E. }
  apply copy_Ok_lookup in Hrun2
    as (src' & wr' & r' & Hcfg' & -> & Hp2 & _ & Hr2).
  rewrite Htd in *.
  rewrite bool_decide_eq_true_2 in * by (by rewrite Hcanon).
  cbn [resolvePlacement placement_path] in *. unfold written_text in *.
  rewrite Hcanon in *.
  assert (Hs : src' = src) by congruence. subst src'.
  rewrite (Hr2 _ _ _ eq_refl) in Hp2.
  rewrite universal_newlines_id in Hp2.
  2:{ rewrite !no_cr_app, no_cr_rstrip, no_cr_separator, no_cr_header,
        universal_newlines_no_cr by apply universal_newlines_no_cr. done. }
  exists src, wr0. split; [done|]. split; [done|]. split; [exact Hp2|].
  intros Hsrc. rewrite Hp2. do 2 f_equal.
  rewrite !(app_assoc _ _ (universal_newlines src)),
    !(app_assoc (rstrip (universal_newlines old))).
  rewrite rstrip_app by done. by rewrite <- !app_assoc.
Qed.

(** X11. When the target directory is the directory of the bundled file
    and holds a [pyproject.toml], a call without the merge flag writes
    over the bundled file itself: the sidecar has the name of the bundled
    file.  Afterwards the bundled file is the header followed by what it
    was, as read. *)
Theorem sidecar_in_package_overwrites_bundle pkg w p w' :
  let d := pkg // u "python" in
  is_Some (fs w !! (d // canonical_name)) →
  copy_config_to_project pkg (Some d) false w = (Ok p, w') →
  p = get_python_config_path pkg ∧
  ∃ src wr,
    fs w !! get_python_config_path pkg = Some (File true wr src) ∧
    fs w' !! get_python_config_path pkg
      = Some (File true true (header ++ universal_newlines src)).
Proof.
  cbv zeta. intros Hex Hrun.
  apply copy_Ok_lookup in Hrun as (src & wr & r & Hcfg & -> & Hp & _ & Hr).
  unfold target_of in *. cbn [default from_option id] in *.
  rewrite bool_decide_eq_true_2 in * by done.
  cbn [resolvePlacement placement_path] in *. unfold written_text in Hp.
  change (pkg // u "python" // sidecar_name)
    with (get_python_config_path pkg) in *.
  rewrite (Hr _ _ _ Hcfg) in Hp.
  split; [done|]. by exists src, wr.
Qed.

(** ** The lines of the file written *)

Lemma split_lines_nonempty (s : str) : split_lines s ≠ [].
Proof. induction s as [|c t IH]; cbn; [done|]. by repeat case_match. Qed.

(** The lines of two texts joined by a newline are the lines of the one
    and the lines of the other. *)
Lemma split_lines_app (a b : str) :
  split_lines (a ++ 10%N :: b) = split_lines a ++ split_lines b.
Proof.
  induction a as [|c a IH]; [done|]. cbn [app split_lines]. rewrite IH.
  destruct (c =? 10)%N; [done|].
  pose proof (split_lines_nonempty a) as Ha.
  by destruct (split_lines a).
Qed.

(** The header ends in a newline, the separator starts with one and, with
    the header after it, ends in one; the lines in between are comments or
    empty. *)
Lemma header_newline : header = removelast header ++ [10%N].
Proof. by vm_compute. Qed.

Lemma separator_header_newline :
  separator ++ header
  = 10%N :: removelast (drop 1 (separator ++ header)) ++ [10%N].
Proof. by vm_compute. Qed.

Lemma added_lines_comments :
  forallb comment_or_blank (split_lines (removelast header)) = true ∧
  forallb comment_or_blank
    (split_lines (removelast (drop 1 (separator ++ header)))) = true.
Proof. by vm_compute. Qed.

Lemma lines_after_block (blk b0 src : str) :
  blk = b0 ++ [10%N] →
  split_lines (blk ++ src) = split_lines b0 ++ split_lines src.
Proof. intros ->. rewrite <- app_assoc. apply split_lines_app. Qed.

Lemma lines_around_block (a blk b0 src : str) :
  blk = 10%N :: b0 ++ [10%N] →
  split_lines (a ++ blk ++ src)
  = split_lines a ++ split_lines b0 ++ split_lines src.
Proof.
  intros ->.
  change (a ++ (10%N :: b0 ++ [10%N]) ++ src)
    with (a ++ 10%N :: ((b0 ++ [10%N]) ++ src)).
  rewrite split_lines_app, <- app_assoc.
  change (b0 ++ [10%N] ++ src) with (b0 ++ 10%N :: src).
  by rewrite split_lines_app.
Qed.

(** X12. What a call adds to the texts it puts together is comment lines
    and empty lines only, and the bundled text starts on a line of its
    own: the lines of the file written are the lines of the old text as
    read, without its trailing white space (when merging), then lines that
    are empty or start with [#], then the lines of the bundled text as
    read. *)
Theorem written_lines pkg td merge w p w' :
  copy_config_to_project pkg td merge w = (Ok p, w') →
  let d := target_of td w in
  let m := resolvePlacement merge
             (bool_decide (is_Some (fs w !! (d // canonical_name)))) in
  ∃ src wr r text added,
    fs w !! get_python_config_path pkg = Some (File true wr src) ∧
    fs w' !! p = Some (File r true text) ∧
    forallb comment_or_blank added = true ∧
    split_lines text =
      match m, fs w !! (d // canonical_name) with
      | APPEND_MERGE, Some (File _ _ old) =>
          split_lines (rstrip (universal_newlines old))
      | _, _ => []
      end ++ added ++ split_lines (universal_newlines src).
Proof.
  intros Hrun. cbv zeta.
  apply copy_Ok_lookup in Hrun as (src & wr & r & Hcfg & -> & Hp & _).
  destruct added_lines_comments as [Hh Hs].
  pose proof (lines_after_block header _ (universal_newlines src)
                header_newline) as Lh.
  exists src, wr, r.
  destruct (resolvePlacement _ _) eqn:Em; unfold written_text in Hp;
    cbv iota in Hp |- *.
  - exists (header ++ universal_newlines src),
      (split_lines (removelast header)).
    split; [exact Hcfg|]. split; [exact Hp|].
    split; [exact Hh|]. rewrite app_nil_l. exact Lh.
  - exists (header ++ universal_newlines src),
      (split_lines (removelast header)).
    split; [exact Hcfg|]. split; [exact Hp|].
    split; [exact Hh|]. rewrite app_nil_l. exact Lh.
  - destruct (fs w !! (target_of td w // canonical_name))
      as [[rd0 wr0 old|rd0 wr0 n|dw]|] eqn:Eold; cbv iota in Hp |- *.
    + exists (rstrip (universal_newlines old) ++ separator ++ header
              ++ universal_newlines src),
        (split_lines (removelast (drop 1 (separator ++ header)))).
      split; [exact Hcfg|]. split; [exact Hp|].
      split; [exact Hs|].
      rewrite (app_assoc separator header (universal_newlines src)).
      exact (lines_around_block _ _ _ _ separator_header_newline).
    + exists (header ++ universal_newlines src),
        (split_lines (removelast header)).
      split; [exact Hcfg|]. split; [exact Hp|].
      split; [exact Hh|]. rewrite app_nil_l. exact Lh.
    + exists (header ++ universal_newlines src),
        (split_lines (removelast header)).
      split; [exact Hcfg|]. split; [exact Hp|].
      split; [exact Hh|]. rewrite app_nil_l. exact Lh.
    + exists (header ++ universal_newlines src),
        (split_lines (removelast header)).
      split; [exact Hcfg|]. split; [exact Hp|].
      split; [exact Hh|]. rewrite app_nil_l. exact Lh.
Qed.

(** ** [main] on [show] and without a command *)

(** X13. [main] writes only on [copy]: on [show], with or without
    [--cat], and without a command it makes no [write_text], leaves the
    file system and the room as they were, and sends nothing to standard
    error. *)
Theorem main_writes_only_on_copy pkg exn_str help_text args w :
  let run := main pkg exn_str help_text args w in
  match args with
  | Copy _ _ => True
  | Show _ | NoCommand =>
      fs run.2 = fs w ∧ free run.2 = free w ∧ stderr run.2 = stderr w ∧
      writes (calls run.2) = writes (calls w)
  end.
Proof.
  cbv zeta. destruct args as [t m|[]|]; [done|..];
    unfold main; rewrite !bind_run; unfold print, mret, M_ret.
  - unfold read_text.
    destruct (fs w !! get_python_config_path pkg) as [[[] ? s|[] ? n|]|];
      [destruct (encodable _ _)|..];
      world_simpl; by rewrite writes_snoc, app_nil_r.
  - by destruct (encodable _ _).
  - by destruct (encodable _ _).
Qed.

(** X14. [show] without [--cat] makes no call on the file system: it
    returns 0 when standard output can encode the path of the bundled
    file, and raises otherwise.  [show --cat] returns 0 exactly when the
    bundled file can be read as text and standard output can encode the
    text; otherwise [main] itself raises what the read or [print] raises:
    the error is not caught and turned into exit code 1 as on [copy], and
    nothing is printed on either stream. *)
Theorem show_outcome pkg exn_str help_text w :
  let path := get_python_config_path pkg in
  let plain := main pkg exn_str help_text (Show false) w in
  let cat := main pkg exn_str help_text (Show true) w in
  plain = (if encodable w (Path_str path)
           then (Ok 0%Z, emit [Path_str path] w)
           else (Raise (UnicodeEncodeError (Path_str path)), w)) ∧
  (cat.1 = Ok 0%Z ↔
   ∃ wr s, fs w !! path = Some (File true wr s) ∧
           encodable w (universal_newlines s) = true) ∧
  (∀ s wr, fs w !! path = Some (File true wr s) →
     cat = if encodable w (universal_newlines s)
           then (Ok 0%Z, emit [universal_newlines s] (log (CReadText path) w))
           else (Raise (UnicodeEncodeError (universal_newlines s)),
                 log (CReadText path) w)) ∧
  (readable_file w path = false →
     ∃ e, (read_text path w).1 = Raise e ∧
          cat = (Raise e, log (CReadText path) w)).
Proof.
  cbv zeta. unfold main. rewrite !bind_run. unfold print, mret, M_ret.
  split; [by destruct (encodable _ _)|].
  unfold readable_file, read_text.
  destruct (fs w !! get_python_config_path pkg) as [[[] wr s|[] wr n|]|] eqn:E;
    cbn [fst snd]; world_simpl.
  - destruct (encodable w (universal_newlines s)) eqn:Ee; cbn [fst snd].
    + split; [split; [by eexists _, _|done]|].
      split; [|done]. intros ?? [= <- <-]. by rewrite Ee.
    + split; [split; [done|intros (? & ? & [= <- <-] & ?); congruence]|].
      split; [|done]. intros ?? [= <- <-]. by rewrite Ee.
  - split; [split; [done|by intros (? & ? & ? & ?)]|].
    split; [done|]. intros _. by eexists.
  - split; [split; [done|by intros (? & ? & ? & ?)]|].
    split; [done|]. intros _. by eexists.
  - split; [split; [done|by intros (? & ? & ? & ?)]|].
    split; [done|]. intros _. by eexists.
  - split; [split; [done|by intros (? & ? & ? & ?)]|].
    split; [done|]. intros _. by eexists.
  - split; [split; [done|by intros (? & ? & ? & ?)]|].
    split; [done|]. intros _. by eexists.
Qed.

(** ** The further theorems at work *)

Lemma unreadable_bundle_stops_the_call_witness :
  (∀ wr s, fs ex_no_bundle !! get_python_config_path ex_pkg
           ≠ Some (File true wr s)) ∧
  (copy_config_to_project ex_pkg None true ex_no_bundle).1
    = Raise (FileNotFoundError (get_python_config_path ex_pkg)).
Proof.
  assert (H : ∀ wr s, fs ex_no_bundle !! get_python_config_path ex_pkg
                      ≠ Some (File true wr s))
    by (intros wr s E; vm_compute in E; discriminate E).
  split; [exact H|].
  rewrite (unreadable_bundle_stops_the_call ex_pkg None true ex_no_bundle H).
  vm_compute. reflexivity.
Defined.

Lemma merge_needs_a_readable_file_witness :
  let run := copy_config_to_project ex_pkg None true ex_canonical_dir in
  let canonical := target_of None ex_canonical_dir // canonical_name in
  fs ex_canonical_dir !! get_python_config_path ex_pkg
    = Some (File true false ex_bundled) ∧
  fs ex_canonical_dir !! canonical = Some (Dir true) ∧
  run.1 = Raise (IsADirectoryError canonical) ∧
  fs run.2 = fs ex_canonical_dir.
Proof.
  cbv zeta.
  assert (H1 : fs ex_canonical_dir !! get_python_config_path ex_pkg
               = Some (File true false ex_bundled))
    by (vm_compute; reflexivity).
  assert (H2 : fs ex_canonical_dir
               !! (target_of None ex_canonical_dir // canonical_name)
               = Some (Dir true)) by (vm_compute; reflexivity).
  assert (H3 : ∀ wr' old, Dir true ≠ File true wr' old) by (intros; discriminate).
  split; [exact H1|]. split; [exact H2|].
  pose proof (merge_needs_a_readable_file ex_pkg None ex_canonical_dir
                _ _ _ H1 H2 H3) as H.
  cbv zeta in H. destruct H as (Ha & Hb & _). exact (conj Ha Hb).
Defined.

Lemma target_directory_must_be_writable_witness :
  let run := copy_config_to_project ex_pkg (Some ex_proj) false ex_no_dir in
  let d := target_of (Some ex_proj) ex_no_dir in
  fs ex_no_dir !! get_python_config_path ex_pkg
    = Some (File true false ex_bundled) ∧
  fs ex_no_dir !! (d // canonical_name) = None ∧
  holder ex_no_dir (d // canonical_name) ≠ Some (Dir true) ∧
  run.1 = Raise (FileNotFoundError (ex_proj // canonical_name)) ∧
  fs run.2 = fs ex_no_dir.
Proof.
  cbv zeta.
  assert (H1 : fs ex_no_dir !! get_python_config_path ex_pkg
               = Some (File true false ex_bundled))
    by (vm_compute; reflexivity).
  assert (H2 : fs ex_no_dir
               !! (target_of (Some ex_proj) ex_no_dir // canonical_name)
               = None) by (vm_compute; reflexivity).
  assert (H3 : holder ex_no_dir
                 (target_of (Some ex_proj) ex_no_dir // canonical_name)
               ≠ Some (Dir true))
    by (intros E; vm_compute in E; discriminate E).
  split; [exact H1|]. split; [exact H2|]. split; [exact H3|].
  pose proof (target_directory_must_be_writable ex_pkg (Some ex_proj) false
                ex_no_dir _ _ H1 H2 H3) as H.
  cbv zeta in H. destruct H as (Ha & Hb & _). split; [|exact Hb].
  rewrite Ha. vm_compute. reflexivity.
Defined.

Lemma returned_path_is_announced_witness :
  let run := copy_config_to_project ex_pkg (Some ex_proj) false ex_project in
  run.1 = Ok (ex_proj // sidecar_name) ∧
  stdout run.2 =
    stdout ex_project ++ sidecar_notice
    ++ [done_line false (ex_proj // sidecar_name)] ++ []
    ++ next_steps_lines true.
Proof.
  cbv zeta.
  assert (H : (copy_config_to_project ex_pkg (Some ex_proj) false
                 ex_project).1 = Ok (ex_proj // sidecar_name))
    by (vm_compute; reflexivity).
  split; [exact H|].
  rewrite (returned_path_is_announced _ _ _ _ _ _ (run_Ok _ _ _ H)).
  vm_compute. reflexivity.
Defined.

Lemma failed_call_output_witness :
  let run := copy_config_to_project ex_pkg (Some ex_proj) false ex_ascii in
  let line := done_line false (ex_proj // canonical_name) in
  run.1 = Raise (UnicodeEncodeError line) ∧
  ∃ out, stdout run.2 = stdout ex_ascii ++ out ∧
         encodable ex_ascii line = false ∧
         forallb (encodable ex_ascii) out = true.
Proof.
  cbv zeta.
  assert (H : (copy_config_to_project ex_pkg (Some ex_proj) false
                 ex_ascii).1
              = Raise (UnicodeEncodeError
                         (done_line false (ex_proj // canonical_name))))
    by (vm_compute; reflexivity).
  split; [exact H|].
  destruct (failed_call_output _ _ _ _ _ _ (run_Raise _ _ _ H))
    as (out & Ha & _ & Hb).
  destruct (Hb _ eq_refl) as (Hc & Hd & _).
  exists out. exact (conj Ha (conj Hc Hd)).
Defined.

Lemma bundled_file_is_left_alone_witness :
  let d := target_of (Some ex_proj) ex_project in
  let there := bool_decide (is_Some (fs ex_project !! (d // canonical_name))) in
  let p := placement_path d (resolvePlacement false there) in
  (there = true →
   resolve ex_project p ≠ resolve ex_project (get_python_config_path ex_pkg)) ∧
  fs (copy_config_to_project ex_pkg (Some ex_proj) false ex_project).2
    !! get_python_config_path ex_pkg
  = fs ex_project !! get_python_config_path ex_pkg.
Proof.
  cbv zeta.
  assert (H : bool_decide (is_Some (fs ex_project
                 !! (target_of (Some ex_proj) ex_project // canonical_name)))
              = true →
              resolve ex_project
                (placement_path (target_of (Some ex_proj) ex_project)
                   (resolvePlacement false
                      (bool_decide (is_Some (fs ex_project
                         !! (target_of (Some ex_proj) ex_project
                             // canonical_name))))))
              ≠ resolve ex_project (get_python_config_path ex_pkg))
    by (intros _ E; vm_compute in E; discriminate E).
  split; [exact H|].
  exact (bundled_file_is_left_alone ex_pkg (Some ex_proj) false ex_project H).
Defined.

Lemma sidecar_rerun_changes_nothing_witness :
  let first := copy_config_to_project ex_pkg (Some ex_proj) false ex_project in
  let second := copy_config_to_project ex_pkg (Some ex_proj) false first.2 in
  let d := target_of (Some ex_proj) ex_project in
  is_Some (fs ex_project !! (d // canonical_name)) ∧
  resolve ex_project (d // sidecar_name)
    ≠ resolve ex_project (get_python_config_path ex_pkg) ∧
  first.1 = Ok (ex_proj // sidecar_name) ∧
  second.1 = Ok (ex_proj // sidecar_name) ∧
  fs second.2 = fs first.2 ∧ free second.2 = free first.2.
Proof.
  cbv zeta.
  assert (H1 : is_Some (fs ex_project
                 !! (target_of (Some ex_proj) ex_project // canonical_name)))
    by (vm_compute; eexists; reflexivity).
  assert (H2 : resolve ex_project
                 (target_of (Some ex_proj) ex_project // sidecar_name)
               ≠ resolve ex_project (get_python_config_path ex_pkg))
    by (intros E; vm_compute in E; discriminate E).
  assert (H3 : (copy_config_to_project ex_pkg (Some ex_proj) false
                  ex_project).1 = Ok (ex_proj // sidecar_name))
    by (vm_compute; reflexivity).
  split; [exact H1|]. split; [exact H2|]. split; [exact H3|].
  pose proof (sidecar_rerun_changes_nothing _ _ _ _ _ H1 H2
                (run_Ok _ _ _ H3)) as H.
  cbv zeta in H. destruct H as (_ & Ha & Hb & Hc).
  exact (conj Ha (conj Hb Hc)).
Defined.

Lemma merge_twice_appends_twice_witness :
  let first := copy_config_to_project ex_pkg (Some ex_proj) true ex_project in
  let second := copy_config_to_project ex_pkg (Some ex_proj) true first.2 in
  let canonical := target_of (Some ex_proj) ex_project // canonical_name in
  fs ex_project !! canonical = Some (File true true ex_original) ∧
  resolve ex_project canonical
    ≠ resolve ex_project (get_python_config_path ex_pkg) ∧
  first.1 = Ok (ex_proj // canonical_name) ∧
  second.1 = Ok (ex_proj // canonical_name) ∧
  ∃ src wr0,
    fs ex_project !! get_python_config_path ex_pkg
      = Some (File true wr0 src) ∧
    fs second.2 !! canonical
      = Some (File true true
                (rstrip (rstrip (universal_newlines ex_original) ++ separator
                         ++ header ++ universal_newlines src)
                 ++ separator ++ header ++ universal_newlines src)).
Proof.
  cbv zeta.
  assert (H1 : fs ex_project
               !! (target_of (Some ex_proj) ex_project // canonical_name)
               = Some (File true true ex_original))
    by (vm_compute; reflexivity).
  assert (H2 : resolve ex_project
                 (target_of (Some ex_proj) ex_project // canonical_name)
               ≠ resolve ex_project (get_python_config_path ex_pkg))
    by (intros E; vm_compute in E; discriminate E).
  assert (H3 : (copy_config_to_project ex_pkg (Some ex_proj) true
                  ex_project).1 = Ok (ex_proj // canonical_name))
    by (vm_compute; reflexivity).
  assert (H4 : (copy_config_to_project ex_pkg (Some ex_proj) true
                  (copy_config_to_project ex_pkg (Some ex_proj) true
                     ex_project).2).1 = Ok (ex_proj // canonical_name))
    by (vm_compute; reflexivity).
  split; [exact H1|]. split; [exact H2|]. split; [exact H3|].
  split; [exact H4|].
  destruct (merge_twice_appends_twice _ _ _ _ _ _ _ _ _ _ H1 H2
              (run_Ok _ _ _ H3) (run_Ok _ _ _ H4))
    as (src & wr0 & Ha & _ & Hb & _).
  exists src, wr0. exact (conj Ha Hb).
Defined.

Lemma sidecar_in_package_overwrites_bundle_witness :
  let d := ex_pkg // u "python" in
  let run := copy_config_to_project ex_pkg (Some d) false ex_in_package in
  is_Some (fs ex_in_package !! (d // canonical_name)) ∧
  run.1 = Ok (get_python_config_path ex_pkg) ∧
  ∃ src wr,
    fs ex_in_package !! get_python_config_path ex_pkg
      = Some (File true wr src) ∧
    fs run.2 !! get_python_config_path ex_pkg
      = Some (File true true (header ++ universal_newlines src)).
Proof.
  cbv zeta.
  assert (H1 : is_Some (fs ex_in_package
                        !! (ex_pkg // u "python" // canonical_name)))
    by (vm_compute; eexists; reflexivity).
  assert (H2 : (copy_config_to_project ex_pkg (Some (ex_pkg // u "python"))
                  false ex_in_package).1 = Ok (get_python_config_path ex_pkg))
    by (vm_compute; reflexivity).
  split; [exact H1|]. split; [exact H2|].
  exact (proj2 (sidecar_in_package_overwrites_bundle _ _ _ _ H1
                  (run_Ok _ _ _ H2))).
Defined.

Lemma written_lines_witness :
  let run := copy_config_to_project ex_pkg (Some ex_proj) true ex_project in
  run.1 = Ok (ex_proj // canonical_name) ∧
  ∃ src wr r text added,
    fs ex_project !! get_python_config_path ex_pkg
      = Some (File true wr src) ∧
    fs run.2 !! (ex_proj // canonical_name) = Some (File r true text) ∧
    forallb comment_or_blank added = true.
Proof.
  cbv zeta.
  assert (H : (copy_config_to_project ex_pkg (Some ex_proj) true
                 ex_project).1 = Ok (ex_proj // canonical_name))
    by (vm_compute; reflexivity).
  split; [exact H|].
  destruct (written_lines _ _ _ _ _ _ (run_Ok _ _ _ H))
    as (src & wr & r & text & added & Ha & Hb & Hc & _).
  exists src, wr, r, text, added. exact (conj Ha (conj Hb Hc)).
Defined.
